(** * image_show: playback, scanning and settings of the slideshow players

    A shallow embedding of the repository's three Python files:
    - [src/src/main.py]  : the PySide6 player (modules [Config], [ImageScanner],
      [Viewer] and [Qt] below),
    - [src/old/main.py]  : the earlier pygame player (module [Pygame]),
    - [src/src/test_scanner.py] : the file counter (module [Counter]).

    Python objects that are mutated in place become records threaded through
    the functions; exceptions become the [Raised] case of [Py.result]; the
    interpreter's bounded call stack becomes an explicit depth argument; the
    global random generator becomes an explicit stream of draws; the
    filesystem becomes a finite tree. *)

From stdpp Require Import gmap strings list fin_maps sorting.
From Stdlib Require Import ZArith Lia Ascii.

Set Warnings "-register-all".

(** ** Python runtime: exceptions, indexing, the [random] module *)

Module Py.

Inductive exn :=
| IndexError
| RecursionError
| TypeError
| AttributeError
| OSError
| JSONDecodeError.

Inductive result (A : Type) :=
| Returned (a : A)
| Raised (e : exn).
Arguments Returned {A} a.
Arguments Raised {A} e.

Global Instance result_ret : MRet result := λ A a, Returned a.
Global Instance result_bind : MBind result := λ A B k r,
  match r with
  | Returned a => k a
  | Raised e => Raised e
  end.

(** [try: body / except Exception: handler] *)
Definition try_except {A} (body : result A) (handler : exn → result A) : result A :=
  match body with
  | Returned a => Returned a
  | Raised e => handler e
  end.

(** [l[i]] for a Python [int] index: negative indices count from the end,
    anything outside [-len, len) raises [IndexError]. *)
Definition getitem {A} (l : list A) (i : Z) : result A :=
  let n := Z.of_nat (length l) in
  let j := if decide (i < 0)%Z then (i + n)%Z else i in
  if decide (0 ≤ j < n)%Z then
    match l !! Z.to_nat j with
    | Some x => Returned x
    | None => Raised IndexError
    end
  else Raised IndexError.

(** The generator behind [random]: the raw draws still to come.  Each call
    of [randbelow n] consumes one draw and reduces it into [0, n); a
    generator that ran dry keeps answering 0. *)
Definition entropy := list nat.

Definition randbelow (n : nat) (g : entropy) : nat * entropy :=
  match g with
  | [] => (0, [])
  | r :: g' => (r mod n, g')
  end.

(** [random.randint(a, b)]: an integer in [a, b], both ends included. *)
Definition randint (a b : Z) (g : entropy) : Z * entropy :=
  let '(r, g') := randbelow (Z.to_nat (b - a + 1)) g in
  ((a + Z.of_nat r)%Z, g').

(** [x[i], x[j] = x[j], x[i]] *)
Definition swap {A} (x : list A) (i j : nat) : list A :=
  match x !! i, x !! j with
  | Some xi, Some xj => <[j:=xi]> (<[i:=xj]> x)
  | _, _ => x
  end.

(** [random.shuffle(x)]:
    [for i in reversed(range(1, len(x))): j = randbelow(i + 1); swap]. *)
Fixpoint shuffle_from {A} (i : nat) (x : list A) (g : entropy) : list A * entropy :=
  match i with
  | O => (x, g)
  | S i' =>
      let '(j, g') := randbelow (S i) g in
      shuffle_from i' (swap x i j) g'
  end.

Definition shuffle {A} (x : list A) (g : entropy) : list A * entropy :=
  shuffle_from (length x - 1) x g.

End Py.

(** ** Strings and [pathlib] *)

Module Str.

Definition lower_ascii (c : ascii) : ascii :=
  let n := Ascii.nat_of_ascii c in
  if decide (65 ≤ n ≤ 90) then Ascii.ascii_of_nat (n + 32) else c.

Definition upper_ascii (c : ascii) : ascii :=
  let n := Ascii.nat_of_ascii c in
  if decide (97 ≤ n ≤ 122) then Ascii.ascii_of_nat (n - 32) else c.

Fixpoint map (f : ascii → ascii) (s : string) : string :=
  match s with
  | EmptyString => EmptyString
  | String c s' => String (f c) (map f s')
  end.

(** [s.lower()] and [s.upper()] on the ASCII letters. *)
Definition lower : string → string := map lower_ascii.
Definition upper : string → string := map upper_ascii.

(** [s.split(sep)] for a one-character separator. *)
Fixpoint split (sep : ascii) (s : string) : list string :=
  match s with
  | EmptyString => [EmptyString]
  | String c s' =>
      if decide (c = sep) then EmptyString :: split sep s'
      else match split sep s' with
           | w :: ws => String c w :: ws
           | [] => [String c EmptyString]
           end
  end.

(** [sep.join(parts)] *)
Fixpoint join (sep : string) (parts : list string) : string :=
  match parts with
  | [] => EmptyString
  | [w] => w
  | w :: ws => String.app w (String.app sep (join sep ws))
  end.

(** The tail of [s] that starts at its last ["."], when it has one. *)
Fixpoint from_last_dot (s : string) : option string :=
  match s with
  | EmptyString => None
  | String c s' =>
      match from_last_dot s' with
      | Some t => Some t
      | None => if decide (c = "."%char) then Some s else None
      end
  end.

End Str.

Module Pathlib.

(** A parsed POSIX path: whether it starts at the root, and its components
    (empty components and ["."] are dropped when the path is built). *)
Record Path := { absolute : bool; parts : list string }.

Definition is_slash (s : string) : bool :=
  match s with
  | String "/" _ => true
  | _ => false
  end.

Definition keep (w : string) : bool :=
  negb (bool_decide (w = ""%string) || bool_decide (w = "."%string)).

(** [Path(s)] *)
Definition of_str (s : string) : Path :=
  {| absolute := is_slash s;
     parts := List.filter keep (Str.split "/" s) |}.

(** [str(p)] *)
Definition str (p : Path) : string :=
  match absolute p, parts p with
  | false, [] => "."
  | false, ws => Str.join "/" ws
  | true, ws => String "/" (Str.join "/" ws)
  end.

(** [p / name] for a child entry of a directory listing. *)
Definition child (p : Path) (rel : list string) : Path :=
  {| absolute := absolute p; parts := parts p ++ rel |}.

(** [p.name]: the last component. *)
Definition name (p : Path) : string := List.last (parts p) ""%string.

(** [p.suffix]: with [i = name.rfind(".")], [name[i:]] when
    [0 < i < len(name) - 1], else the empty string. *)
Definition suffix_of_name (nm : string) : string :=
  match nm with
  | EmptyString => ""
  | String _ rest =>
      match Str.from_last_dot rest with
      | Some t => if decide (String.length t = 1) then "" else t
      | None => ""
      end
  end.

Definition suffix (p : Path) : string := suffix_of_name (name p).

End Pathlib.

(** ** The filesystem and the catalog scanner of [src/src/main.py] *)

Module Fs.

(** A directory tree.  The entries of a directory come in the order in which
    the operating system lists them; a directory that may not be listed has
    [readable = false]. *)
Inductive node :=
| File (name : string)
| Dir (name : string) (readable : bool) (entries : list node).

(** What a path string resolves to, if anything. *)
Definition filesystem := string → option node.

Definition entry_name (n : node) : string :=
  match n with
  | File s => s
  | Dir s _ _ => s
  end.

Definition is_file (n : node) : bool :=
  match n with
  | File _ => true
  | Dir _ _ _ => false
  end.

(** [scandir]: the entries of a directory that can be listed. *)
Definition scandir (n : node) : list node :=
  match n with
  | Dir _ true es => es
  | _ => []
  end.

(** [p.glob("*")]: the entries of [n], each with its path relative to [n]. *)
Definition glob_star (n : node) : list (list string * node) :=
  (λ e, ([entry_name e], e)) <$> scandir n.

Definition below (name : string) (found : list string * node)
  : list string * node :=
  (name :: found.1, found.2).

(** [p.glob("**/*")]: the entries of [n], then for each of its
    subdirectories in turn everything found below it. *)
Fixpoint glob_rec (n : node) : list (list string * node) :=
  match n with
  | Dir _ true es =>
      ((λ e, ([entry_name e], e)) <$> es)
      ++ List.flat_map (λ e, below (entry_name e) <$> glob_rec e) es
  | _ => []
  end.

End Fs.

Module ImageScanner.

(** The scanner thread: [folder] is [Path(folder)] and [extensions] are
    lower-cased in [__init__]. *)
Record t := {
  folder : Pathlib.Path;
  extensions : list string;
  recursive : bool;
}.

Definition init (folder : string) (extensions : list string)
    (recursive : bool) : t :=
  {| folder := Pathlib.of_str folder;
     extensions := Str.lower <$> extensions;
     recursive := recursive |}.

(** [path.is_file() and path.suffix.lower() in self.extensions] *)
Definition accepted (self : t) (found : list string * Fs.node) : bool :=
  Fs.is_file found.2
  && bool_decide
       (Str.lower (Pathlib.suffix (Pathlib.child (folder self) found.1))
        ∈ extensions self).

(** [run]: the list handed to [scan_complete.emit].  A folder that does not
    exist gives the empty list. *)
Definition run (fs : Fs.filesystem) (self : t) : list string :=
  match fs (Pathlib.str (folder self)) with
  | None => []
  | Some root =>
      let pattern := if recursive self then Fs.glob_rec else Fs.glob_star in
      (λ found, Pathlib.str (Pathlib.child (folder self) found.1))
        <$> List.filter (accepted self) (pattern root)
  end.

End ImageScanner.

(** ** The file counter of [src/src/test_scanner.py] *)

Module Counter.

Import Fs.

(** [os.walk(top)] with its default [onerror=None]: one triple per directory
    that can be listed, the directory itself first and then its
    subdirectories in turn; a directory whose listing fails is skipped
    without an exception.  Only the sub-directories and the other entries of
    each triple are kept. *)
Fixpoint walk (n : node) : list (list node * list node) :=
  match n with
  | Dir _ true es =>
      (List.filter (λ e, negb (is_file e)) es, List.filter is_file es)
      :: List.flat_map walk es
  | _ => []
  end.

(** [os.path.exists] and [os.path.isdir] *)
Definition exists_ (fs : filesystem) (path : string) : bool :=
  match fs path with
  | Some _ => true
  | None => false
  end.

Definition isdir (fs : filesystem) (path : string) : bool :=
  match fs path with
  | Some (Dir _ _ _) => true
  | _ => false
  end.

(** The [for] loop over [os.walk(folder_path)]. *)
Definition count_loop (fs : filesystem) (folder_path : string) : Py.result Z :=
  match fs folder_path with
  | Some n =>
      Py.Returned
        (foldl (λ file_count triple,
                  (file_count + Z.of_nat (length triple.2))%Z)
               0%Z (walk n))
  | None => Py.Returned 0%Z
  end.

(** [count_all_files] *)
Definition count_all_files (fs : filesystem) (folder_path : string) : Py.result Z :=
  if negb (exists_ fs folder_path) then Py.Returned (-1)%Z
  else if negb (isdir fs folder_path) then Py.Returned (-1)%Z
  else Py.try_except (count_loop fs folder_path) (λ _, Py.Returned (-1)%Z).

End Counter.

(** ** Settings: JSON values and the [Config] class of [src/src/main.py] *)

Module Json.

(** What [json.load] produces and [json.dump] accepts.  A float is kept as
    its [repr] text, which is what the [json] module writes and reads. *)
Inductive value :=
| Null
| Bool (b : bool)
| Int (z : Z)
| Float (repr : string)
| Str (s : string)
| Arr (items : list value)
| Obj (members : list (string * value)).

End Json.

Module Config.

Import Json.

Abbreviation dict := (gmap string value).

Definition DEFAULT_CONFIG : dict :=
  list_to_map
    [ ("image_folder", Str "");
      ("recursive", Bool true);
      ("interval", Int 5);
      ("random", Bool true);
      ("fullscreen", Bool true);
      ("scale_mode", Str "fit");
      ("extensions",
        Arr [Str ".jpg"; Str ".jpeg"; Str ".png"; Str ".bmp"; Str ".gif";
             Str ".tiff"; Str ".webp"]);
      ("rescan_interval", Int 300);
      ("show_info", Bool true);
      ("show_clock", Bool true);
      ("font_path", Null);
      ("font_size", Int 20);
      ("info_color", Str "#FFFFFF");
      ("background_color", Str "#000000") ]%string.

(** What [json.load] finds at the top level of a well-formed file. *)
Inductive document :=
| Mapping (d : dict)
| NotMapping (v : value).

(** The settings file on disk. *)
Inductive file :=
| Absent
| Unreadable
| Garbled
| Holds (doc : document).

(** [self.config_file.exists()] *)
Definition file_exists (f : file) : bool :=
  match f with
  | Absent => false
  | _ => true
  end.

(** [open(self.config_file, 'r')] followed by [json.load(f)] *)
Definition json_load (f : file) : Py.result document :=
  match f with
  | Absent | Unreadable => Py.Raised Py.OSError
  | Garbled => Py.Raised Py.JSONDecodeError
  | Holds doc => Py.Returned doc
  end.

(** [{**self.DEFAULT_CONFIG, **loaded}]: unpacking anything but a mapping
    raises [TypeError]. *)
Definition merge (loaded : document) : Py.result dict :=
  match loaded with
  | Mapping d => Py.Returned (d ∪ DEFAULT_CONFIG)
  | NotMapping _ => Py.Raised Py.TypeError
  end.

(** [Config.load] *)
Definition load (f : file) : Py.result dict :=
  if file_exists f then
    Py.try_except
      (loaded ← json_load f; merge loaded)
      (λ _, Py.Returned DEFAULT_CONFIG)
  else Py.Returned DEFAULT_CONFIG.

(** How the environment answers an attempt to rewrite the file. *)
Inductive write_outcome :=
| Written
| OpenFailed
| DumpFailed.

(** [open(self.config_file, 'w')] followed by [json.dump(self.config, f)]:
    the new state of the file, and what the two calls return or raise.
    Opening for writing truncates the file, so a dump that fails leaves it
    cut short. *)
Definition json_dump (w : write_outcome) (cfg : dict) (f : file)
  : file * Py.result unit :=
  match w with
  | Written => (Holds (Mapping cfg), Py.Returned ())
  | OpenFailed => (f, Py.Raised Py.OSError)
  | DumpFailed => (Garbled, Py.Raised Py.OSError)
  end.

(** [Config.save] *)
Definition save (w : write_outcome) (cfg : dict) (f : file)
  : file * Py.result unit :=
  let '(f', r) := json_dump w cfg f in
  (f', Py.try_except r (λ _, Py.Returned ())).

(** [Config.get] *)
Definition get (cfg : dict) (key : string) (default : value) : value :=
  match cfg !! key with Some v => v | None => default end.

(** [Config.set] *)
Definition set (w : write_outcome) (key : string) (v : value)
    (cfg : dict) (f : file) : dict * file * Py.result unit :=
  let cfg' := <[key:=v]> cfg in
  let '(f', r) := save w cfg' f in
  (cfg', f', r).

End Config.

(** ** The PySide6 player: [ImageViewer] and [SlideshowWindow] *)

Module Viewer.

(** The text of the bottom-left panel.  [Playing] keeps the fields that
    [show_current_image] formats into one line
    ([name | position/total | R or O | SCALE | interval s]). *)
Inductive info :=
| Blank
| NoImages
| Playing (filename : string) (position : Z) (total : nat)
          (random : bool) (scale : string) (interval : Json.value).

(** The fields of [ImageViewer] that playback reads or writes;
    [current_pixmap] is the path whose decoded bitmap is on screen. *)
Record t := {
  scale_mode : Json.value;
  current_pixmap : option string;
  info_text : info;
}.

(** [ImageViewer.set_image]: the scale mode is stored first; the bitmap
    changes only when decoding succeeds, and the call reports success. *)
Definition set_image (decodes : string → bool)
    (image_path : string) (mode : Json.value) (v : t) : bool * t :=
  let v1 := {| scale_mode := mode;
               current_pixmap := current_pixmap v;
               info_text := info_text v |} in
  if decodes image_path then
    (true, {| scale_mode := mode;
              current_pixmap := Some image_path;
              info_text := info_text v |})
  else (false, v1).

(** [ImageViewer.set_info] *)
Definition set_info (text : info) (v : t) : t :=
  {| scale_mode := scale_mode v;
     current_pixmap := current_pixmap v;
     info_text := text |}.

End Viewer.

Module Qt.

Import Json.

(** [SlideshowWindow], together with the two pieces of the outside world
    its methods touch: the random generator and the settings file. *)
Record window := {
  config : gmap string value;
  images : list string;
  current_index : Z;
  is_random : bool;
  image_viewer : Viewer.t;
  play_timer : bool;
  rng : Py.entropy;
  disk : Config.file;
}.

Definition with_index (i : Z) (w : window) : window :=
  {| config := config w; images := images w; current_index := i;
     is_random := is_random w; image_viewer := image_viewer w;
     play_timer := play_timer w; rng := rng w; disk := disk w |}.

Definition with_viewer (v : Viewer.t) (w : window) : window :=
  {| config := config w; images := images w;
     current_index := current_index w; is_random := is_random w;
     image_viewer := v; play_timer := play_timer w; rng := rng w;
     disk := disk w |}.

Definition with_rng (g : Py.entropy) (w : window) : window :=
  {| config := config w; images := images w;
     current_index := current_index w; is_random := is_random w;
     image_viewer := image_viewer w; play_timer := play_timer w; rng := g;
     disk := disk w |}.

Definition with_images (l : list string) (w : window) : window :=
  {| config := config w; images := l;
     current_index := current_index w; is_random := is_random w;
     image_viewer := image_viewer w; play_timer := play_timer w;
     rng := rng w; disk := disk w |}.

Definition with_timer (b : bool) (w : window) : window :=
  {| config := config w; images := images w;
     current_index := current_index w; is_random := is_random w;
     image_viewer := image_viewer w; play_timer := b; rng := rng w;
     disk := disk w |}.

(** [scale_mode.upper()]: only a [str] has the method. *)
Definition upper (v : value) : Py.result string :=
  match v with
  | Str s => Py.Returned (Str.upper s)
  | _ => Py.Raised Py.AttributeError
  end.

Section Playback.

(** Whether [Image.open] and the conversion to a bitmap succeed for a
    path. *)
Variable decodes : string → bool.

(** The index step of [next_image]. *)
Definition advance (w : window) : window :=
  if is_random w then
    let '(i, g) :=
      Py.randint 0 (Z.of_nat (length (images w)) - 1) (rng w) in
    with_rng g (with_index i w)
  else
    with_index
      ((current_index w + 1) `mod` Z.of_nat (length (images w)))%Z w.

(** The index step of [prev_image]. *)
Definition retreat (w : window) : window :=
  if is_random w then w
  else
    with_index
      ((current_index w - 1) `mod` Z.of_nat (length (images w)))%Z w.

(** [show_current_image] and [next_image] call each other; [depth] is the
    number of frames left on the interpreter's stack, and running out of
    them raises [RecursionError]. *)
Fixpoint show_current_image (depth : nat) (w : window) : Py.result window :=
  match depth with
  | O => Py.Raised Py.RecursionError
  | S d =>
      match images w with
      | [] => Py.Returned w
      | _ =>
          image_path ← Py.getitem (images w) (current_index w);
          let mode := Config.get (config w) "scale_mode" (Str "fit") in
          let '(success, v) :=
            Viewer.set_image decodes image_path mode (image_viewer w) in
          let w1 := with_viewer v w in
          if success then
            let interval := Config.get (config w) "interval" Null in
            let filename := Pathlib.name (Pathlib.of_str image_path) in
            scale ← upper mode;
            Py.Returned
              (with_viewer
                 (Viewer.set_info
                    (Viewer.Playing filename (current_index w + 1)
                       (length (images w)) (is_random w) scale interval)
                    v)
                 w1)
          else next_image d w1
      end
  end
with next_image (depth : nat) (w : window) : Py.result window :=
  match depth with
  | O => Py.Raised Py.RecursionError
  | S d =>
      match images w with
      | [] => Py.Returned w
      | _ => show_current_image d (advance w)
      end
  end.

(** [prev_image] *)
Definition prev_image (depth : nat) (w : window) : Py.result window :=
  match depth with
  | O => Py.Raised Py.RecursionError
  | S d =>
      match images w with
      | [] => Py.Returned w
      | _ => show_current_image d (retreat w)
      end
  end.

(** How the environment answers the rewriting of the settings file. *)
Variable io : Config.write_outcome.

Definition with_random (b : bool) (cfg : gmap string value)
    (f : Config.file) (w : window) : window :=
  {| config := cfg; images := images w; current_index := current_index w;
     is_random := b; image_viewer := image_viewer w;
     play_timer := play_timer w; rng := rng w; disk := f |}.

(** [if self.is_random: random.shuffle(self.images)] *)
Definition shuffle_if_random (w : window) : window :=
  if is_random w then
    let '(l, g) := Py.shuffle (images w) (rng w) in
    with_rng g (with_images l w)
  else w.

(** [toggle_random] *)
Definition toggle_random (depth : nat) (w : window) : Py.result window :=
  match depth with
  | O => Py.Raised Py.RecursionError
  | S d =>
      let b := negb (is_random w) in
      let '(cfg, f, saved) :=
        Config.set io "random" (Bool b) (config w) (disk w) in
      _ ← saved;
      show_current_image d (shuffle_if_random (with_random b cfg f w))
  end.

(** [on_scan_complete] *)
Definition on_scan_complete (depth : nat) (found : list string) (w : window)
  : Py.result window :=
  match depth with
  | O => Py.Raised Py.RecursionError
  | S d =>
      match found with
      | [] =>
          Py.Returned
            (with_timer false
               (with_viewer (Viewer.set_info Viewer.NoImages (image_viewer w)) w))
      | _ =>
          let old_count := length (images w) in
          let w2 := shuffle_if_random (with_images found w) in
          if decide (old_count = 0) then
            w3 ← show_current_image d (with_index 0 w2);
            Py.Returned (with_timer true w3)
          else Py.Returned w2
      end
  end.

End Playback.

End Qt.

(** ** The pygame player of [src/old/main.py]: [ImagePlayer] *)

Module Pygame.

(** [ImagePlayer] with the list of its [ImageLoader] and the two settings
    playback reads; [current_surface] is the path whose bitmap is shown. *)
Record player := {
  image_files : list string;
  current_image_index : Z;
  random_order : bool;
  auto_restart : bool;
  current_surface : option string;
  rng : Py.entropy;
}.

Definition with_index (i : Z) (p : player) : player :=
  {| image_files := image_files p; current_image_index := i;
     random_order := random_order p; auto_restart := auto_restart p;
     current_surface := current_surface p; rng := rng p |}.

Definition with_surface (s : option string) (p : player) : player :=
  {| image_files := image_files p;
     current_image_index := current_image_index p;
     random_order := random_order p; auto_restart := auto_restart p;
     current_surface := s; rng := rng p |}.

Definition with_order (b : bool) (p : player) : player :=
  {| image_files := image_files p;
     current_image_index := current_image_index p;
     random_order := b; auto_restart := auto_restart p;
     current_surface := current_surface p; rng := rng p |}.

(** [ImageLoader.shuffle] *)
Definition shuffle (p : player) : player :=
  match image_files p with
  | [] => p
  | _ =>
      let '(l, g) := Py.shuffle (image_files p) (rng p) in
      {| image_files := l; current_image_index := current_image_index p;
         random_order := random_order p; auto_restart := auto_restart p;
         current_surface := current_surface p; rng := g |}
  end.

(** [ImageLoader.sort]: [list.sort] on strings. *)
Definition sort (p : player) : player :=
  match image_files p with
  | [] => p
  | _ =>
      {| image_files := merge_sort String.le (image_files p);
         current_image_index := current_image_index p;
         random_order := random_order p; auto_restart := auto_restart p;
         current_surface := current_surface p; rng := rng p |}
  end.

(** How a method ends: normally, or with an exception; either way the
    attributes assigned so far stay assigned. *)
Inductive outcome :=
| Done (p : player)
| Threw (e : Py.exn) (p : player).

Section Playback.

(** Whether [_load_image] returns a surface for a path ([None] otherwise;
    it catches its own exceptions). *)
Variable decodes : string → bool.

(** [_load_next_image]: the call that finds no frame left raises
    [RecursionError] inside the [try] of its caller, whose [except] clears
    the surface and returns. *)
Fixpoint _load_next_image (depth : nat) (p : player) : outcome :=
  match depth with
  | O => Threw Py.RecursionError p
  | S d =>
      match image_files p with
      | [] => Done (with_surface None p)
      | _ =>
          let p1 :=
            if decide (Z.of_nat (length (image_files p)) ≤ current_image_index p)%Z
            then with_index 0 p else p in
          match Py.getitem (image_files p1) (current_image_index p1) with
          | Py.Raised e => Threw e p1
          | Py.Returned image_path =>
              let tried :=
                if decodes image_path then
                  Done (with_surface (Some image_path) p1)
                else
                  _load_next_image d
                    (with_index
                       ((current_image_index p1 + 1)
                          `mod` Z.of_nat (length (image_files p1)))%Z
                       (with_surface None p1)) in
              match tried with
              | Done p' => Done p'
              | Threw _ p' => Done (with_surface None p')
              end
          end
      end
  end.

(** [_next_image] *)
Definition _next_image (depth : nat) (p : player) : outcome :=
  match depth with
  | O => Threw Py.RecursionError p
  | S d =>
      match image_files p with
      | [] => Done p
      | _ =>
          let p1 := with_index (current_image_index p + 1) p in
          let p2 :=
            if decide (Z.of_nat (length (image_files p1)) ≤ current_image_index p1)%Z
            then
              let p' := with_index 0 p1 in
              if random_order p' && auto_restart p' then shuffle p' else p'
            else p1 in
          _load_next_image d p2
      end
  end.

(** [_prev_image] *)
Definition _prev_image (depth : nat) (p : player) : outcome :=
  match depth with
  | O => Threw Py.RecursionError p
  | S d =>
      match image_files p with
      | [] => Done p
      | _ =>
          let p1 := with_index (current_image_index p - 1) p in
          let p2 :=
            if decide (current_image_index p1 < 0)%Z
            then with_index (Z.of_nat (length (image_files p1)) - 1) p1
            else p1 in
          _load_next_image d p2
      end
  end.

(** [_toggle_random_order] *)
Definition _toggle_random_order (depth : nat) (p : player) : outcome :=
  match depth with
  | O => Threw Py.RecursionError p
  | S d =>
      let p1 := with_order (negb (random_order p)) p in
      match image_files p1 with
      | [] => Done p1
      | _ =>
          let p2 := if random_order p1 then shuffle p1 else sort p1 in
          _load_next_image d (with_index 0 p2)
      end
  end.

End Playback.

End Pygame.

(** ** Key presses *)

Module Keys.

Inductive key := Next | Prev.

Definition press (decodes : string → bool) (depth : nat) (k : key)
    (w : Qt.window) : Py.result Qt.window :=
  match k with
  | Next => Qt.next_image decodes depth w
  | Prev => Qt.prev_image decodes depth w
  end.

(** A sequence of presses, each handled from the event loop with [depth]
    frames to spare. *)
Fixpoint presses (decodes : string → bool) (depth : nat) (ks : list key)
    (w : Qt.window) : Py.result Qt.window :=
  match ks with
  | [] => Py.Returned w
  | k :: ks' => w' ← press decodes depth k w; presses decodes depth ks' w'
  end.

End Keys.

(** ** Reading the tree: which entries a scan can reach *)

Module Tree.

Import Fs.

(** [reaches n rel e]: following the names [rel] from directory [n], through
    directories that can be listed, leads to the entry [e]. *)
Inductive reaches : node → list string → node → Prop :=
| reaches_entry s es e :
    e ∈ es → reaches (Dir s true es) [entry_name e] e
| reaches_below s es d rel e :
    d ∈ es → reaches d rel e → reaches (Dir s true es) (entry_name d :: rel) e.



End Tree.

(** ** Notions used in the statements *)

(** The setting [key] (or the fallback of the call site) is a string. *)
Definition str_setting (cfg : gmap string Json.value) (key : string)
    (default : Json.value) : Prop :=
  ∃ s, Config.get cfg key default = Json.Str s.

(** The index lies inside the catalog. *)
Definition in_range (w : Qt.window) : Prop :=
  (0 ≤ Qt.current_index w < Z.of_nat (length (Qt.images w)))%Z.

(** The index [k] places after the current one, going round the catalog. *)
Definition ahead (w : Qt.window) (k : nat) : Z :=
  ((Qt.current_index w + Z.of_nat k) `mod` Z.of_nat (length (Qt.images w)))%Z.

(** The info line [show_current_image] sets for the picture at the index. *)
Definition shown (w : Qt.window) : Viewer.info :=
  Viewer.Playing
    (Pathlib.name
       (Pathlib.of_str
          (default ""%string (Qt.images w !! Z.to_nat (Qt.current_index w)))))
    (Qt.current_index w + 1) (length (Qt.images w)) (Qt.is_random w)
    (Str.upper
       match Config.get (Qt.config w) "scale_mode" (Json.Str "fit") with
       | Json.Str s => s
       | _ => ""%string
       end)
    (Config.get (Qt.config w) "interval" Json.Null).

(** The same two notions for the pygame player. *)
Definition in_range_files (p : Pygame.player) : Prop :=
  (0 ≤ Pygame.current_image_index p
   < Z.of_nat (length (Pygame.image_files p)))%Z.

Definition ahead_files (p : Pygame.player) (k : nat) : Z :=
  ((Pygame.current_image_index p + Z.of_nat k)
     `mod` Z.of_nat (length (Pygame.image_files p)))%Z.

(** The number of files in a tree, and trees all of whose directories can
    be listed. *)
Fixpoint files_in (n : Fs.node) : Z :=
  match n with
  | Fs.File _ => 1%Z
  | Fs.Dir _ _ es => foldr (λ e acc, (files_in e + acc)%Z) 0%Z es
  end.

Inductive listable : Fs.node → Prop :=
| listable_file s : listable (Fs.File s)
| listable_dir s es : Forall listable es → listable (Fs.Dir s true es).

(** ** Sample inputs *)

Definition abc : list string := ["a.png"; "b.png"; "c.png"]%string.



Definition blank_viewer : Viewer.t :=
  {| Viewer.scale_mode := Json.Str "fit";
     Viewer.current_pixmap := None;
     Viewer.info_text := Viewer.Blank |}.

Definition window0 (l : list string) (i : Z) (random : bool) (g : Py.entropy)
  : Qt.window :=
  {| Qt.config := Config.DEFAULT_CONFIG; Qt.images := l;
     Qt.current_index := i; Qt.is_random := random;
     Qt.image_viewer := blank_viewer; Qt.play_timer := true;
     Qt.rng := g; Qt.disk := Config.Absent |}.

Definition player0 (l : list string) (i : Z) (random : bool)
    (g : Py.entropy) : Pygame.player :=
  {| Pygame.image_files := l; Pygame.current_image_index := i;
     Pygame.random_order := random; Pygame.auto_restart := true;
     Pygame.current_surface := None; Pygame.rng := g |}.

Definition files_of (r : Pygame.outcome)
  : option (list string * Z * option string) :=
  match r with
  | Pygame.Done p =>
      Some (Pygame.image_files p, Pygame.current_image_index p,
            Pygame.current_surface p)
  | Pygame.Threw _ _ => None
  end.

Definition all_decode : string → bool := λ _, true.

Definition only_b_fails : string → bool :=
  λ p, negb (bool_decide (p = "b.png"%string)).

Definition none_decodes : string → bool := λ _, false.

Definition index_of (r : Py.result Qt.window) : option Z :=
  match r with
  | Py.Returned w => Some (Qt.current_index w)
  | Py.Raised _ => None
  end.



Definition default_extensions : list string :=
  [".jpg"; ".jpeg"; ".png"; ".bmp"; ".gif"; ".tiff"; ".webp"]%string.

Definition pictures : Fs.node :=
  Fs.Dir "images" true
    [ Fs.File "b.PNG";
      Fs.Dir "trip" true [Fs.File "c.jpeg"; Fs.File "notes.txt"; Fs.Dir "x.png" true []];
      Fs.File "a.png";
      Fs.Dir "locked" false [Fs.File "d.png"];
      Fs.File ".png";
      Fs.File "e.Jpg" ]%string.

Definition data_tree : Fs.node :=
  Fs.Dir "data" true
    [ Fs.File "a.txt"; Fs.Dir "private" false [Fs.File "b.txt"] ]%string.

Definition disk_with (at_path : string) (n : Fs.node) : Fs.filesystem :=
  λ p, if decide (p = at_path) then Some n else None.

(** ** The remaining controls of the PySide6 player *)

Module Controls.

Import Json.

(** The truth value Python gives a setting in [if], [and] and [not]. *)
Definition truthy (v : value) : bool :=
  match v with
  | Null => false
  | Bool b => b
  | Int z => negb (Z.eqb z 0)
  | Float r =>
      negb (bool_decide (r = "0.0"%string) || bool_decide (r = "-0.0"%string))
  | Str s => negb (bool_decide (s = ""%string))
  | Arr items => negb (bool_decide (items = []))
  | Obj members => negb (bool_decide (members = []))
  end.

(** [SlideshowWindow] with the attributes of the window and of its viewer
    that the key handlers touch besides playback. *)
Record app := {
  window : Qt.window;
  show_info_flag : value;
  show_clock_flag : value;
  full_screen : bool;
  blank_cursor : bool;
  scan_timer : bool;
  clock_timer : bool;
  scanner : option ImageScanner.t;
  closed : bool;
}.

Definition with_window (w : Qt.window) (a : app) : app :=
  {| window := w; show_info_flag := show_info_flag a;
     show_clock_flag := show_clock_flag a; full_screen := full_screen a;
     blank_cursor := blank_cursor a; scan_timer := scan_timer a;
     clock_timer := clock_timer a; scanner := scanner a; closed := closed a |}.

Definition with_settings (cfg : gmap string value) (f : Config.file)
    (w : Qt.window) : Qt.window :=
  {| Qt.config := cfg; Qt.images := Qt.images w;
     Qt.current_index := Qt.current_index w; Qt.is_random := Qt.is_random w;
     Qt.image_viewer := Qt.image_viewer w; Qt.play_timer := Qt.play_timer w;
     Qt.rng := Qt.rng w; Qt.disk := f |}.

(** The keys [keyPressEvent] tells apart. *)
Inductive key :=
| Key_Escape | Key_Q | Key_X
| Key_Space | Key_Right | Key_Left
| Key_R | Key_F | Key_I | Key_C | Key_M | Key_S | Key_Z | Key_P
| Key_other.

Definition modes : list string := ["fit"; "fill"; "stretch"]%string.

(** [l.index(s)], when [s in l]. *)
Fixpoint index (s : string) (l : list string) : option nat :=
  match l with
  | [] => None
  | x :: l' => if decide (x = s) then Some 0 else S <$> index s l'
  end.

(** [modes.index(current) if current in modes else 0] *)
Definition current_idx (current : value) : nat :=
  match current with
  | Str s => default 0 (index s modes)
  | _ => 0
  end.

(** What a [for] loop over a setting goes through: the items of a list, the
    characters of a string, the keys of an object; nothing else can be
    iterated. *)
Fixpoint chars (s : string) : list value :=
  match s with
  | EmptyString => []
  | String c s' => Str (String c EmptyString) :: chars s'
  end.

Definition iterate (v : value) : Py.result (list value) :=
  match v with
  | Arr items => Py.Returned items
  | Str s => Py.Returned (chars s)
  | Obj members => Py.Returned ((λ kv, Str kv.1) <$> members)
  | _ => Py.Raised Py.TypeError
  end.

(** [[ext.lower() for ext in extensions]] stops at the first item that is
    not a string; [ImageScanner.init] does the lower-casing. *)
Fixpoint strings (items : list value) : Py.result (list string) :=
  match items with
  | [] => Py.Returned []
  | Str s :: rest => l ← strings rest; Py.Returned (s :: l)
  | _ :: _ => Py.Raised Py.AttributeError
  end.

Section Handlers.

Variable decodes : string → bool.
Variable io : Config.write_outcome.

(** [cycle_scale_mode] *)
Definition cycle_scale_mode (depth : nat) (w : Qt.window) : Py.result Qt.window :=
  match depth with
  | O => Py.Raised Py.RecursionError
  | S d =>
      let current := Config.get (Qt.config w) "scale_mode" (Str "fit") in
      next_mode ←
        Py.getitem modes
          (Z.of_nat ((current_idx current + 1) `mod` length modes));
      let '(cfg, f, saved) :=
        Config.set io "scale_mode" (Str next_mode) (Qt.config w) (Qt.disk w) in
      _ ← saved;
      let v := Qt.image_viewer w in
      let v' := {| Viewer.scale_mode := Str next_mode;
                   Viewer.current_pixmap := Viewer.current_pixmap v;
                   Viewer.info_text := Viewer.info_text v |} in
      Qt.show_current_image decodes d
        (Qt.with_viewer v' (with_settings cfg f w))
  end.

(** [toggle_info] *)
Definition toggle_info (a : app) : Py.result app :=
  let flag := Bool (negb (truthy (show_info_flag a))) in
  let w := window a in
  let '(cfg, f, saved) :=
    Config.set io "show_info" flag (Qt.config w) (Qt.disk w) in
  _ ← saved;
  Py.Returned
    {| window := with_settings cfg f w; show_info_flag := flag;
       show_clock_flag := show_clock_flag a; full_screen := full_screen a;
       blank_cursor := blank_cursor a; scan_timer := scan_timer a;
       clock_timer := clock_timer a; scanner := scanner a;
       closed := closed a |}.

(** [toggle_clock] *)
Definition toggle_clock (a : app) : Py.result app :=
  let flag := Bool (negb (truthy (show_clock_flag a))) in
  let w := window a in
  let '(cfg, f, saved) :=
    Config.set io "show_clock" flag (Qt.config w) (Qt.disk w) in
  _ ← saved;
  Py.Returned
    {| window := with_settings cfg f w; show_info_flag := show_info_flag a;
       show_clock_flag := flag; full_screen := full_screen a;
       blank_cursor := blank_cursor a; scan_timer := scan_timer a;
       clock_timer := clock_timer a; scanner := scanner a;
       closed := closed a |}.

(** [toggle_fullscreen]: [showMaximized] when full screen, else
    [showFullScreen]. *)
Definition toggle_fullscreen (a : app) : app :=
  {| window := window a; show_info_flag := show_info_flag a;
     show_clock_flag := show_clock_flag a;
     full_screen := negb (full_screen a);
     blank_cursor := blank_cursor a; scan_timer := scan_timer a;
     clock_timer := clock_timer a; scanner := scanner a;
     closed := closed a |}.

(** [toggle_mouse] *)
Definition toggle_mouse (a : app) : app :=
  {| window := window a; show_info_flag := show_info_flag a;
     show_clock_flag := show_clock_flag a; full_screen := full_screen a;
     blank_cursor := negb (blank_cursor a); scan_timer := scan_timer a;
     clock_timer := clock_timer a; scanner := scanner a;
     closed := closed a |}.

(** [start_scan]: the scanner thread built from the settings; running it is
    left to the thread, whose list arrives through [on_scan_complete]. *)
Definition start_scan (a : app) : Py.result app :=
  let cfg := Qt.config (window a) in
  let folder := Config.get cfg "image_folder" (Str "images") in
  let extensions :=
    Config.get cfg "extensions" (Arr [Str ".jpg"; Str ".png"]) in
  let recursive := Config.get cfg "recursive" (Bool true) in
  match folder with
  | Str path =>
      items ← iterate extensions;
      exts ← strings items;
      Py.Returned
        {| window := window a; show_info_flag := show_info_flag a;
           show_clock_flag := show_clock_flag a; full_screen := full_screen a;
           blank_cursor := blank_cursor a; scan_timer := scan_timer a;
           clock_timer := clock_timer a;
           scanner := Some (ImageScanner.init path exts (truthy recursive));
           closed := closed a |}
  | _ => Py.Raised Py.TypeError
  end.

(** [closeEvent] *)
Definition closeEvent (a : app) : app :=
  {| window := Qt.with_timer false (window a);
     show_info_flag := show_info_flag a;
     show_clock_flag := show_clock_flag a; full_screen := full_screen a;
     blank_cursor := blank_cursor a; scan_timer := false;
     clock_timer := false; scanner := scanner a; closed := true |}.

(** [keyPressEvent] *)
Definition keyPressEvent (depth : nat) (k : key) (a : app) : Py.result app :=
  match depth with
  | O => Py.Raised Py.RecursionError
  | S d =>
      match k with
      | Key_Escape | Key_Q | Key_X => Py.Returned (closeEvent a)
      | Key_Space | Key_Right =>
          w ← Qt.next_image decodes d (window a); Py.Returned (with_window w a)
      | Key_Left =>
          w ← Qt.prev_image decodes d (window a); Py.Returned (with_window w a)
      | Key_R =>
          w ← Qt.toggle_random decodes io d (window a);
          Py.Returned (with_window w a)
      | Key_F => Py.Returned (toggle_fullscreen a)
      | Key_I => toggle_info a
      | Key_C => toggle_clock a
      | Key_M => Py.Returned (toggle_mouse a)
      | Key_S => start_scan a
      | Key_Z =>
          w ← cycle_scale_mode d (window a); Py.Returned (with_window w a)
      | Key_P =>
          Py.Returned
            (with_window
               (Qt.with_timer (negb (Qt.play_timer (window a))) (window a)) a)
      | Key_other => Py.Returned a
      end
  end.

End Handlers.

End Controls.

(** ** The remaining controls of the pygame player *)

Module Display.

(** What [FullscreenManager.create_screen] asks of [set_mode]: a full-screen
    surface or a frameless one of the size of the screen, or a resizable
    window of 1024 by 768. *)
Inductive screen := Fullscreen | Borderless | Windowed.

(** [ImagePlayer] together with the settings [config.fullscreen] (by its
    truth value) and [config.fullscreen_mode], which the player and its
    [FullscreenManager] share, the surface in use and the visibility of the
    pointer. *)
Record system := {
  player : Pygame.player;
  fullscreen : bool;
  fullscreen_mode : Json.value;
  surface : screen;
  mouse_visible : bool;
}.

(** [FullscreenManager.create_screen] *)
Definition create_screen (s : system) : system :=
  {| player := player s; fullscreen := fullscreen s;
     fullscreen_mode := fullscreen_mode s;
     surface :=
       if fullscreen s then
         match fullscreen_mode s with
         | Json.Str m =>
             if decide (m = "borderless"%string) then Borderless
             else Fullscreen
         | _ => Fullscreen
         end
       else Windowed;
     mouse_visible := mouse_visible s |}.

Definition flip (s : system) : system :=
  {| player := player s; fullscreen := negb (fullscreen s);
     fullscreen_mode := fullscreen_mode s; surface := surface s;
     mouse_visible := mouse_visible s |}.

(** [FullscreenManager.toggle_fullscreen] *)
Definition toggle_fullscreen (s : system) : system := create_screen (flip s).

Inductive outcome :=
| Done (s : system)
| Threw (e : Py.exn) (s : system).

Definition with_player (p : Pygame.player) (s : system) : system :=
  {| player := p; fullscreen := fullscreen s;
     fullscreen_mode := fullscreen_mode s; surface := surface s;
     mouse_visible := mouse_visible s |}.

(** [ImagePlayer._toggle_fullscreen] *)
Definition _toggle_fullscreen (decodes : string → bool) (depth : nat)
    (s : system) : outcome :=
  match depth with
  | O => Threw Py.RecursionError s
  | S d =>
      let s1 := flip s in
      let s2 := toggle_fullscreen s1 in
      let s3 :=
        {| player := player s2; fullscreen := fullscreen s2;
           fullscreen_mode := fullscreen_mode s2; surface := surface s2;
           mouse_visible := negb (fullscreen s2) |} in
      match Pygame._load_next_image decodes d (player s3) with
      | Pygame.Done p => Done (with_player p s3)
      | Pygame.Threw e p => Threw e (with_player p s3)
      end
  end.

End Display.

Module PygameKeys.

Inductive key := Next | Prev.

Definition press (decodes : string → bool) (depth : nat) (k : key)
    (p : Pygame.player) : Pygame.outcome :=
  match k with
  | Next => Pygame._next_image decodes depth p
  | Prev => Pygame._prev_image decodes depth p
  end.

(** A sequence of presses; one that ends with an exception ends the
    sequence. *)
Fixpoint presses (decodes : string → bool) (depth : nat) (ks : list key)
    (p : Pygame.player) : Pygame.outcome :=
  match ks with
  | [] => Pygame.Done p
  | k :: ks' =>
      match press decodes depth k p with
      | Pygame.Done p' => presses decodes depth ks' p'
      | Pygame.Threw e p' => Pygame.Threw e p'
      end
  end.

End PygameKeys.

(** ** Notions used in the further statements *)

(** The scale mode that follows a setting in the cycle fit, fill, stretch;
    anything else is followed by fill. *)
Definition following (current : Json.value) : string :=
  match current with
  | Json.Str s =>
      if decide (s = "fill"%string) then "stretch"%string
      else if decide (s = "stretch"%string) then "fit"%string
      else "fill"%string
  | _ => "fill"%string
  end.

(** The string starts with a dot. *)
Definition is_dotted (s : string) : bool :=
  match s with
  | String "." _ => true
  | _ => false
  end.

(** The state a call of the pygame display leaves, however it ends. *)
Definition state_of (o : Display.outcome) : Display.system :=
  match o with
  | Display.Done s => s
  | Display.Threw _ s => s
  end.

(** The keys of the PySide6 player that do not show a picture. *)
Definition quiet_key (k : Controls.key) : bool :=
  match k with
  | Controls.Key_F | Controls.Key_I | Controls.Key_C | Controls.Key_M
  | Controls.Key_S | Controls.Key_P | Controls.Key_other => true
  | _ => false
  end.

Definition app0 (w : Qt.window) : Controls.app :=
  {| Controls.window := w;
     Controls.show_info_flag := Json.Bool true;
     Controls.show_clock_flag := Json.Bool true;
     Controls.full_screen := true; Controls.blank_cursor := true;
     Controls.scan_timer := true; Controls.clock_timer := true;
     Controls.scanner := None; Controls.closed := false |}.

Definition system0 (p : Pygame.player) (full : bool) : Display.system :=
  {| Display.player := p; Display.fullscreen := full;
     Display.fullscreen_mode := Json.Str "fullscreen";
     Display.surface := if full then Display.Fullscreen else Display.Windowed;
     Display.mouse_visible := negb full |}.

(** * Properties *)

Example split_demo : Str.split "/" "/home//pi/./a.PNG" = [""; "home"; ""; "pi"; "."; "a.PNG"]%string.
Proof. reflexivity. Qed.
Example path_demo : Pathlib.str (Pathlib.of_str "/home//pi/./a.PNG") = "/home/pi/a.PNG"%string.
Proof. reflexivity. Qed.
Example path_demo2 : Pathlib.str (Pathlib.child (Pathlib.of_str "") ["a.png"%string]) = "a.png"%string.
Proof. reflexivity. Qed.
Example suffix_demo : map Pathlib.suffix_of_name ["a.PNG"; ".bashrc"; "a."; "a.tar.gz"; ".."; "x"]%string = [".PNG"; ""; ""; ".gz"; ""; ""]%string.
Proof. reflexivity. Qed.
Example lower_demo : Str.lower "a.PnG" = "a.png"%string /\ Str.upper "fit" = "FIT"%string.
Proof. split; reflexivity. Qed.

(** ** Runtime facts *)

Lemma getitem_lookup {A} (l : list A) (i : Z) (x : A) :
  (0 ≤ i < Z.of_nat (length l))%Z →
  l !! Z.to_nat i = Some x →
  Py.getitem l i = Py.Returned x.
Proof.
  intros Hi Hx. unfold Py.getitem.
  destruct (decide (i < 0)%Z) as [?|_]; [lia|].
  destruct (decide _) as [_|?]; [|lia].
  by rewrite Hx.
Qed.

Lemma getitem_in_range {A} (l : list A) (i : Z) :
  (0 ≤ i < Z.of_nat (length l))%Z →
  ∃ x, l !! Z.to_nat i = Some x ∧ Py.getitem l i = Py.Returned x.
Proof.
  intros Hi.
  destruct (lookup_lt_is_Some_2 l (Z.to_nat i)) as [x Hx]; [lia|].
  exists x. split; [done|]. by apply getitem_lookup.
Qed.

Lemma randbelow_lt (n : nat) (g : Py.entropy) :
  n ≠ 0 → (Py.randbelow n g).1 < n.
Proof.
  intros Hn. destruct g as [|r g]; simpl; [lia|].
  by apply Nat.mod_upper_bound.
Qed.


Lemma randint_range (a b : Z) (g : Py.entropy) :
  (a ≤ b)%Z → (a ≤ (Py.randint a b g).1 ≤ b)%Z.
Proof.
  intros Hab. unfold Py.randint.
  pose proof (randbelow_lt (Z.to_nat (b - a + 1)) g) as Hlt.
  destruct (Py.randbelow _ g) as [r g']. simpl in *. lia.
Qed.


(** ** Playback of the PySide6 player *)

Section QtPlayback.

Import Qt.
Variable decodes : string → bool.

Lemma advance_images w : images (advance w) = images w.
Proof.
  unfold advance. destruct (is_random w); [|done].
  by destruct (Py.randint _ _ _).
Qed.

Lemma advance_config w : config (advance w) = config w.
Proof.
  unfold advance. destruct (is_random w); [|done].
  by destruct (Py.randint _ _ _).
Qed.

Lemma advance_is_random w : is_random (advance w) = is_random w.
Proof.
  unfold advance. destruct (is_random w) eqn:E; [|done].
  by destruct (Py.randint _ _ _).
Qed.

Lemma advance_in_range w :
  images w ≠ [] →
  (0 ≤ current_index (advance w) < Z.of_nat (length (images w)))%Z.
Proof.
  intros Hne.
  assert (0 < Z.of_nat (length (images w)))%Z as Hlen
    by (destruct (images w); [done|simpl; lia]).
  unfold advance. destruct (is_random w).
  - pose proof (randint_range 0 (Z.of_nat (length (images w)) - 1) (rng w)) as H.
    destruct (Py.randint _ _ _) as [i g]. simpl in *. lia.
  - simpl. by apply Z.mod_pos_bound.
Qed.

Lemma retreat_images w : images (retreat w) = images w.
Proof. unfold retreat. by destruct (is_random w). Qed.

(** A picture that decodes is put on screen by one call, whatever is left
    of the stack beyond one frame. *)
Lemma show_current_image_decodes d w p :
  (0 ≤ current_index w < Z.of_nat (length (images w)))%Z →
  images w !! Z.to_nat (current_index w) = Some p →
  decodes p = true →
  str_setting (config w) "scale_mode" (Json.Str "fit") →
  ∃ w', show_current_image decodes (S d) w = Py.Returned w'
        ∧ current_index w' = current_index w
        ∧ images w' = images w
        ∧ is_random w' = is_random w
        ∧ config w' = config w
        ∧ rng w' = rng w
        ∧ play_timer w' = play_timer w
        ∧ Viewer.current_pixmap (image_viewer w') = Some p
        ∧ Viewer.info_text (image_viewer w') = shown w.
Proof.
  intros Hi Hp Hdec [s Hs]. simpl.
  destruct (images w) as [|x l] eqn:Himg; [simpl in Hi; lia|].
  rewrite (getitem_lookup _ _ p) by done. simpl.
  unfold Viewer.set_image. rewrite Hdec, Hs. simpl.
  eexists. split; [done|]. simpl. repeat split; try done.
  unfold shown. rewrite Himg, Hp, Hs. done.
Qed.


Lemma show_current_image_fails d w p :
  (0 ≤ current_index w < Z.of_nat (length (images w)))%Z →
  images w !! Z.to_nat (current_index w) = Some p →
  decodes p = false →
  show_current_image decodes (S d) w
  = next_image decodes d
      (with_viewer
         {| Viewer.scale_mode := Config.get (config w) "scale_mode" (Json.Str "fit");
            Viewer.current_pixmap := Viewer.current_pixmap (image_viewer w);
            Viewer.info_text := Viewer.info_text (image_viewer w) |} w).
Proof.
  intros Hi Hp Hdec. simpl.
  destruct (images w) as [|x l] eqn:Himg; [simpl in Hi; lia|].
  rewrite (getitem_lookup _ _ p) by done. simpl.
  unfold Viewer.set_image. by rewrite Hdec.
Qed.

Lemma next_image_unfold d w :
  images w ≠ [] →
  next_image decodes (S d) w = show_current_image decodes d (advance w).
Proof. intros Hne. destruct d; simpl; by destruct (images w). Qed.

Lemma prev_image_unfold d w :
  images w ≠ [] →
  prev_image decodes (S d) w = show_current_image decodes d (retreat w).
Proof. intros Hne. simpl. by destruct (images w). Qed.

(** In sequential mode, when the picture [k] places ahead decodes, the
    skipping stops at the first picture ahead that decodes, after at most
    [k] skips of two frames each. *)
Lemma show_current_image_skips k : ∀ d w,
  is_random w = false →
  (0 ≤ current_index w < Z.of_nat (length (images w)))%Z →
  str_setting (config w) "scale_mode" (Json.Str "fit") →
  (∃ p, images w !! Z.to_nat (ahead w k) = Some p ∧ decodes p = true) →
  ∃ w' j p,
    show_current_image decodes (S (2 * k + d)) w = Py.Returned w'
    ∧ j ≤ k
    ∧ current_index w' = ahead w j
    ∧ images w' = images w
    ∧ is_random w' = false
    ∧ config w' = config w
    ∧ rng w' = rng w
    ∧ play_timer w' = play_timer w
    ∧ images w !! Z.to_nat (ahead w j) = Some p
    ∧ decodes p = true
    ∧ Viewer.current_pixmap (image_viewer w') = Some p
    ∧ (∀ i, i < j → ∃ q, images w !! Z.to_nat (ahead w i) = Some q
                          ∧ decodes q = false).
Proof.
  induction k as [|k IH]; intros d w Hseq Hi Hs (p & Hp & Hdec).
  - assert (ahead w 0 = current_index w) as H0.
    { unfold ahead. rewrite Z.add_0_r. by apply Z.mod_small. }
    rewrite H0 in Hp.
    destruct (show_current_image_decodes d w p)
      as (w' & Hrun & ? & ? & ? & ? & ? & ? & ? & ?); try done.
    exists w', 0, p. rewrite H0. simpl. repeat split; try done; try congruence.
    intros i Hlt. lia.
  - destruct (getitem_in_range (images w) (current_index w) Hi) as (q & Hq & _).
    assert (ahead w 0 = current_index w) as H0.
    { unfold ahead. rewrite Z.add_0_r. by apply Z.mod_small. }
    destruct (decodes q) eqn:Hdq.
    + destruct (show_current_image_decodes (2 * S k + d) w q)
        as (w' & Hrun & ? & ? & ? & ? & ? & ? & ? & ?); try done.
      exists w', 0, q. rewrite H0. repeat split; try done; try congruence; try lia.
    + replace (S (2 * S k + d)) with (S (S (S (2 * k + d)))) by lia.
      rewrite (show_current_image_fails _ w q) by done.
      assert (images w ≠ []) as Hne
        by (intros E; rewrite E in Hi; simpl in Hi; lia).
      rewrite next_image_unfold by done.
      set (w1 := with_viewer _ w).
      assert (advance w1 = with_index (ahead w 1) w1) as Hadv.
      { unfold advance. simpl. rewrite Hseq. done. }
      assert (∀ i, ahead (advance w1) i = ahead w (S i)) as Hahead.
      { intros i. rewrite Hadv. unfold ahead. simpl.
        rewrite Zplus_mod_idemp_l. f_equal. lia. }
      destruct (IH d (advance w1))
        as (w' & j & r & Hrun & Hj & Hidx & Him & Hr & Hc & Hg & Ht & Hl & Hdr & Hpix & Hbefore).
      * by rewrite Hadv.
      * rewrite Hadv. simpl. apply Z.mod_pos_bound. lia.
      * by rewrite Hadv.
      * exists p. rewrite Hahead. rewrite Hadv. simpl. done.
      * exists w', (S j), r. rewrite Hrun.
        rewrite Hahead in Hidx, Hl. rewrite Hadv in Him, Hc, Hl, Hg, Ht. simpl in *.
        repeat split; try done; try lia.
        intros i Hlt. destruct i as [|i].
        -- exists q. by rewrite H0.
        -- destruct (Hbefore i) as (q' & Hq' & Hdq'); [lia|].
           exists q'. rewrite Hahead in Hq'. rewrite Hadv in Hq'. done.
Qed.

Lemma ahead_reaches w (m : nat) :
  (0 ≤ current_index w < Z.of_nat (length (images w)))%Z →
  m < length (images w) →
  let k := Z.to_nat ((Z.of_nat m - current_index w) `mod` Z.of_nat (length (images w))) in
  k < length (images w) ∧ ahead w k = Z.of_nat m.
Proof.
  intros Hi Hm k.
  pose proof (Z.mod_pos_bound (Z.of_nat m - current_index w)
                (Z.of_nat (length (images w)))) as Hb.
  split; [lia|].
  unfold ahead, k. rewrite Z2Nat.id by lia.
  rewrite Zplus_mod_idemp_r.
  replace (current_index w + (Z.of_nat m - current_index w))%Z
    with (Z.of_nat m) by lia.
  apply Z.mod_small. lia.
Qed.

Lemma retreat_in_range w : in_range w → in_range (retreat w).
Proof.
  unfold in_range, retreat. intros Hi.
  destruct (is_random w); [done|]. simpl.
  apply Z.mod_pos_bound. lia.
Qed.

Lemma in_range_nonempty w : in_range w → images w ≠ [].
Proof. unfold in_range. intros Hi E. rewrite E in Hi. simpl in Hi. lia. Qed.

(** Whatever the pictures do, a call that returns leaves the catalog alone
    and the index inside it. *)
Lemma returns_in_range depth : ∀ w w',
  in_range w →
  (show_current_image decodes depth w = Py.Returned w' →
   images w' = images w ∧ is_random w' = is_random w ∧ in_range w')
  ∧ (next_image decodes depth w = Py.Returned w' →
     images w' = images w ∧ is_random w' = is_random w ∧ in_range w').
Proof.
  induction depth as [|d IH]; intros w w' Hi; [by split|].
  pose proof (in_range_nonempty w Hi) as Hne.
  split.
  - simpl. destruct (images w) as [|x l] eqn:Himg; [done|]. rewrite <- Himg.
    destruct (getitem_in_range (images w) (current_index w) Hi) as (p & _ & ->).
    simpl. unfold Viewer.set_image. destruct (decodes p).
    + destruct (upper _); simpl; [|done].
      intros [= <-]. simpl. done.
    + intros Hrun. apply IH in Hrun; [|done]. simpl in Hrun. done.
  - rewrite next_image_unfold by done. intros Hrun.
    apply IH in Hrun.
    + rewrite advance_images, advance_is_random in Hrun. done.
    + unfold in_range. rewrite advance_images. by apply advance_in_range.
Qed.

End QtPlayback.

Lemma default_scale_mode :
  str_setting Config.DEFAULT_CONFIG "scale_mode" (Json.Str "fit").
Proof. exists "fit"%string. reflexivity. Qed.


Lemma show_current_image_finds decodes (w : Qt.window) depth :
  Qt.is_random w = false →
  in_range w →
  str_setting (Qt.config w) "scale_mode" (Json.Str "fit") →
  (∃ p, p ∈ Qt.images w ∧ decodes p = true) →
  2 * length (Qt.images w) ≤ depth →
  ∃ w', Qt.show_current_image decodes depth w = Py.Returned w'
        ∧ Qt.images w' = Qt.images w
        ∧ Qt.is_random w' = false
        ∧ Qt.config w' = Qt.config w
        ∧ in_range w'.
Proof.
  intros Hseq Hi Hs (p & Hin & Hdec) Hdepth.
  apply list_elem_of_lookup in Hin as [m Hm].
  pose proof (lookup_lt_Some _ _ _ Hm) as Hlt.
  destruct (ahead_reaches w m Hi Hlt) as [Hk Hahead].
  set (k := Z.to_nat _) in *.
  destruct (show_current_image_skips decodes k (depth - 1 - 2 * k) w)
    as (w' & j & r & Hrun & _ & Hidx & Him & Hr & Hc & _ & _ & Hl & _);
    try done.
  { exists p. rewrite Hahead, Nat2Z.id. done. }
  exists w'. replace (S (2 * k + (depth - 1 - 2 * k))) with depth in Hrun by lia.
  repeat split; try done.
  - rewrite Hidx. unfold ahead. apply Z.mod_pos_bound. unfold in_range in Hi. lia.
  - rewrite Hidx, Him. unfold ahead. apply Z.mod_pos_bound.
    unfold in_range in Hi. lia.
Qed.

Lemma press_returns decodes key (w : Qt.window) depth :
  Qt.is_random w = false →
  in_range w →
  str_setting (Qt.config w) "scale_mode" (Json.Str "fit") →
  (∃ p, p ∈ Qt.images w ∧ decodes p = true) →
  2 * length (Qt.images w) + 1 ≤ depth →
  ∃ w', Keys.press decodes depth key w = Py.Returned w'
        ∧ Qt.images w' = Qt.images w
        ∧ Qt.is_random w' = false
        ∧ Qt.config w' = Qt.config w
        ∧ in_range w'.
Proof.
  intros Hseq Hi Hs Hp Hdepth.
  pose proof (in_range_nonempty w Hi) as Hne.
  destruct depth as [|D]; [lia|].
  destruct key; unfold Keys.press.
  - rewrite next_image_unfold by done.
    destruct (show_current_image_finds decodes (Qt.advance w) D)
      as (w' & Hrun & Him & Hr & Hc & Hi').
    + by rewrite advance_is_random.
    + unfold in_range. rewrite advance_images. by apply advance_in_range.
    + by rewrite advance_config.
    + by rewrite advance_images.
    + rewrite advance_images. lia.
    + exists w'. rewrite advance_images in Him. rewrite advance_config in Hc.
      done.
  - rewrite prev_image_unfold by done.
    assert (Qt.retreat w = Qt.with_index (Qt.current_index (Qt.retreat w)) w)
      as Hret by (unfold Qt.retreat; by rewrite Hseq).
    destruct (show_current_image_finds decodes (Qt.retreat w) D)
      as (w' & Hrun & Him & Hr & Hc & Hi').
    + by rewrite Hret.
    + by apply retreat_in_range.
    + by rewrite Hret.
    + by rewrite retreat_images.
    + rewrite retreat_images. lia.
    + exists w'. rewrite retreat_images in Him. rewrite Hret in Hc. done.
Qed.

Lemma press_in_range decodes key (w w' : Qt.window) depth :
  in_range w →
  Keys.press decodes depth key w = Py.Returned w' →
  Qt.images w' = Qt.images w ∧ Qt.is_random w' = Qt.is_random w ∧ in_range w'.
Proof.
  intros Hi Hrun. destruct key; unfold Keys.press in Hrun.
  - by apply (returns_in_range decodes depth w w') in Hrun.
  - destruct depth as [|d]; [done|].
    rewrite prev_image_unfold in Hrun by by apply in_range_nonempty.
    apply (returns_in_range decodes d _ w') in Hrun;
      [|by apply retreat_in_range].
    rewrite retreat_images in Hrun.
    replace (Qt.is_random (Qt.retreat w)) with (Qt.is_random w) in Hrun; [done|].
    unfold Qt.retreat. destruct (Qt.is_random w) eqn:E; simpl; congruence.
Qed.

(** C5: on a non-empty catalog in sequential mode, with the index inside the
    catalog, every sequence of next and previous presses that returns leaves
    the index inside [0, len(catalog)) and the catalog as it was; and it does
    return whenever some picture of the catalog decodes and the stack has
    room for one pass.  On an empty catalog next and previous return the
    window untouched. *)
Theorem index_stays_in_range :
  (∀ decodes depth keys (w w' : Qt.window),
     Qt.images w ≠ [] →
     Qt.is_random w = false →
     (0 ≤ Qt.current_index w < Z.of_nat (length (Qt.images w)))%Z →
     Keys.presses decodes depth keys w = Py.Returned w' →
     Qt.images w' = Qt.images w
     ∧ (0 ≤ Qt.current_index w' < Z.of_nat (length (Qt.images w)))%Z)
  ∧ (∀ decodes depth keys (w : Qt.window),
     Qt.images w ≠ [] →
     Qt.is_random w = false →
     (0 ≤ Qt.current_index w < Z.of_nat (length (Qt.images w)))%Z →
     str_setting (Qt.config w) "scale_mode" (Json.Str "fit") →
     (∃ p, p ∈ Qt.images w ∧ decodes p = true) →
     2 * length (Qt.images w) + 1 ≤ depth →
     ∃ w', Keys.presses decodes depth keys w = Py.Returned w'
           ∧ Qt.images w' = Qt.images w
           ∧ (0 ≤ Qt.current_index w' < Z.of_nat (length (Qt.images w)))%Z)
  ∧ (∀ decodes depth key (w : Qt.window),
     Qt.images w = [] →
     Keys.press decodes (S depth) key w = Py.Returned w).
Proof.
  split; [|split].
  - intros decodes depth keys. induction keys as [|k ks IH];
      intros w w' Hne Hseq Hi Hrun.
    + simpl in Hrun. injection Hrun as <-. done.
    + simpl in Hrun.
      destruct (Keys.press decodes depth k w) as [w1|e] eqn:Hk; [|done].
      simpl in Hrun.
      apply press_in_range in Hk as (Him & Hr & Hi1); [|done].
      apply IH in Hrun.
      * rewrite Him in Hrun. done.
      * by apply in_range_nonempty.
      * congruence.
      * done.
  - intros decodes depth keys. induction keys as [|k ks IH];
      intros w Hne Hseq Hi Hs Hp Hdepth.
    + exists w. done.
    + destruct (press_returns decodes k w depth)
        as (w1 & Hk & Him & Hr & Hc & Hi1); try done.
      destruct (IH w1) as (w' & Hrun & Him' & Hi'); try done.
      * by apply in_range_nonempty.
      * by rewrite Hc.
      * by rewrite Him.
      * by rewrite Him.
      * exists w'. simpl. rewrite Hk. simpl. rewrite Hrun.
        rewrite Him in Him', Hi'. done.
  - intros decodes depth key w Hempty.
    destruct key; simpl; by rewrite Hempty.
Qed.


(** When no picture of the catalog decodes, neither method ever returns:
    at every depth the mutual calls end in [RecursionError]. *)
Lemma never_returns decodes depth : ∀ (w : Qt.window),
  in_range w →
  (∀ p, p ∈ Qt.images w → decodes p = false) →
  Qt.show_current_image decodes depth w = Py.Raised Py.RecursionError
  ∧ Qt.next_image decodes depth w = Py.Raised Py.RecursionError.
Proof.
  induction depth as [|d IH]; intros w Hi Hnone; [done|].
  pose proof (in_range_nonempty w Hi) as Hne.
  split.
  - destruct (getitem_in_range (Qt.images w) (Qt.current_index w) Hi)
      as (p & Hp & _).
    rewrite (show_current_image_fails decodes d w p); try done.
    + apply IH; done.
    + apply Hnone. by eapply list_elem_of_lookup_2.
  - rewrite next_image_unfold by done. apply IH.
    + unfold in_range. rewrite advance_images. by apply advance_in_range.
    + by rewrite advance_images.
Qed.

(** ** Shuffling and the order toggle *)

Lemma swap_Permutation {A} (x : list A) (i j : nat) : Py.swap x i j ≡ₚ x.
Proof.
  unfold Py.swap.
  destruct (x !! i) as [xi|] eqn:Hi; [|done].
  destruct (x !! j) as [xj|] eqn:Hj; [|done].
  by apply Permutation_insert_swap.
Qed.

Lemma shuffle_from_Permutation {A} (i : nat) : ∀ (x : list A) g,
  (Py.shuffle_from i x g).1 ≡ₚ x.
Proof.
  induction i as [|i IH]; intros x g; [done|].
  simpl. destruct g as [|r g]; simpl; rewrite IH; apply swap_Permutation.
Qed.

Lemma shuffle_Permutation {A} (x : list A) g : (Py.shuffle x g).1 ≡ₚ x.
Proof. apply shuffle_from_Permutation. Qed.

Lemma toggle_random_unfold decodes io d (w : Qt.window) :
  Qt.toggle_random decodes io (S d) w
  = Qt.show_current_image decodes d
      (Qt.shuffle_if_random
         (Qt.with_random (negb (Qt.is_random w))
            (<["random"%string:=Json.Bool (negb (Qt.is_random w))]> (Qt.config w))
            (Config.json_dump io
               (<["random"%string:=Json.Bool (negb (Qt.is_random w))]> (Qt.config w))
               (Qt.disk w)).1
            w)).
Proof. unfold Qt.toggle_random, Config.set, Config.save. by destruct io. Qed.


(** ** Scanning *)

Example scan_recursive :
  ImageScanner.run (disk_with "images" pictures)
    (ImageScanner.init "images" default_extensions true)
  = ["images/b.PNG"; "images/a.png"; "images/e.Jpg"; "images/trip/c.jpeg"]%string.
Proof. vm_compute. reflexivity. Qed.

Example scan_top_level :
  ImageScanner.run (disk_with "/srv/images" pictures)
    (ImageScanner.init "/srv/images/" default_extensions false)
  = ["/srv/images/b.PNG"; "/srv/images/a.png"; "/srv/images/e.Jpg"]%string.
Proof. vm_compute. reflexivity. Qed.

(** Induction over a tree and the entries of its directories. *)
Lemma node_ind' (P : Fs.node → Prop) :
  (∀ s, P (Fs.File s)) →
  (∀ s r es, Forall P es → P (Fs.Dir s r es)) →
  ∀ n, P n.
Proof.
  intros Hfile Hdir. fix IH 1. intros [s|s r es]; [apply Hfile|].
  apply Hdir. induction es as [|e es IHes]; constructor; [apply IH|apply IHes].
Qed.

Lemma elem_of_flat_map {A B} (f : A → list B) (l : list A) (y : B) :
  y ∈ List.flat_map f l ↔ ∃ x, x ∈ l ∧ y ∈ f x.
Proof.
  rewrite list_elem_of_In, in_flat_map.
  split; intros (x & Hx & Hy); exists x; by rewrite ?list_elem_of_In in *.
Qed.

Lemma glob_rec_reaches n : ∀ rel e,
  (rel, e) ∈ Fs.glob_rec n ↔ Tree.reaches n rel e.
Proof.
  induction n as [s|s r es IH] using node_ind'; intros rel e.
  - simpl. split; [by intros ?%not_elem_of_nil|inversion 1].
  - destruct r; simpl; [|split; [by intros ?%not_elem_of_nil|inversion 1]].
    rewrite elem_of_app, list_elem_of_fmap, elem_of_flat_map. split.
    + intros [(e' & [= -> ->] & Hin)|(d & Hd & Hin)].
      * by constructor.
      * apply list_elem_of_fmap in Hin as ([rel' e'] & [= -> ->] & Hin).
        rewrite Forall_forall in IH. apply IH in Hin; [|done].
        by constructor.
    + inversion 1 as [? ? ? Hin|? ? d rel' ? Hd Hreach]; subst.
      * left. by exists e.
      * right. exists d. split; [done|].
        apply list_elem_of_fmap. exists (rel', e). split; [done|].
        rewrite Forall_forall in IH. by apply IH.
Qed.

Lemma glob_star_reaches n rel e :
  (rel, e) ∈ Fs.glob_star n ↔ Tree.reaches n rel e ∧ length rel = 1.
Proof.
  unfold Fs.glob_star. rewrite list_elem_of_fmap. split.
  - intros (e' & [= -> ->] & Hin).
    destruct n as [|s [] es]; simpl in Hin; try by apply not_elem_of_nil in Hin.
    split; [by constructor|done].
  - intros [Hreach Hlen]. inversion Hreach as [? ? ? Hin|? ? d rel' ? Hd Hr]; subst.
    + by exists e.
    + inversion Hr; subst; simpl in Hlen; lia.
Qed.

Lemma reaches_last n rel e :
  Tree.reaches n rel e → List.last rel ""%string = Fs.entry_name e ∧ rel ≠ [].
Proof.
  induction 1 as [|s es d rel e Hd Hr [IH Hne]]; [done|].
  split; [|done]. simpl. destruct rel; [done|]. done.
Qed.

(** ** Splitting and joining on the slash *)















Lemma pattern_reaches (recursive : bool) root rel e :
  (rel, e) ∈ (if recursive then Fs.glob_rec else Fs.glob_star) root
  ↔ Tree.reaches root rel e ∧ (recursive = false → length rel = 1).
Proof.
  destruct recursive.
  - rewrite glob_rec_reaches. split; [by intros ?|by intros [? _]].
  - rewrite glob_star_reaches. split; [by intros [? ?]|intros [? Hl]; by split; [|apply Hl]].
Qed.

Lemma suffix_of_child folder root rel e :
  Tree.reaches root rel e →
  Pathlib.suffix (Pathlib.child folder rel)
  = Pathlib.suffix_of_name (Fs.entry_name e).
Proof.
  intros [Hlast Hne]%reaches_last.
  unfold Pathlib.suffix, Pathlib.name, Pathlib.child. simpl.
  rewrite <- Hlast. f_equal.
  destruct rel as [|r rel] using rev_ind; [done|].
  by rewrite app_assoc, !last_last.
Qed.

Lemma run_elem_of fs folder exts recursive root p :
  fs (Pathlib.str (Pathlib.of_str folder)) = Some root →
  p ∈ ImageScanner.run fs (ImageScanner.init folder exts recursive)
  ↔ ∃ rel e,
      Tree.reaches root rel e
      ∧ (recursive = false → length rel = 1)
      ∧ Fs.is_file e = true
      ∧ Str.lower (Pathlib.suffix_of_name (Fs.entry_name e))
        ∈ Str.lower <$> exts
      ∧ p = Pathlib.str (Pathlib.child (Pathlib.of_str folder) rel).
Proof.
  intros Hroot. unfold ImageScanner.run. simpl. rewrite Hroot.
  rewrite list_elem_of_fmap. split.
  - intros ([rel e] & -> & Hin).
    apply list_elem_of_In, filter_In in Hin as [Hin Hacc].
    apply list_elem_of_In, pattern_reaches in Hin as [Hreach Hlen].
    unfold ImageScanner.accepted in Hacc. simpl in Hacc.
    apply andb_true_iff in Hacc as [Hfile Hext].
    apply bool_decide_eq_true in Hext.
    rewrite (suffix_of_child _ root rel e) in Hext by done.
    exists rel, e. done.
  - intros (rel & e & Hreach & Hlen & Hfile & Hext & ->).
    exists (rel, e). split; [done|].
    apply list_elem_of_In, filter_In. split.
    + apply list_elem_of_In, pattern_reaches. done.
    + unfold ImageScanner.accepted. simpl.
      apply andb_true_iff. split; [done|]. apply bool_decide_eq_true.
      by rewrite (suffix_of_child _ root rel e).
Qed.


(** C6, as stated, fails: after a scan that found nothing, the catalog known
    before is still in place, so the player is not in its "no image" state:
    "next" goes on to b.png. *)
Lemma empty_scan_keeps_catalog :
  ∃ w', Qt.on_scan_complete all_decode 5 [] (window0 abc 0 false [])
        = Py.Returned w'
        ∧ Qt.images w' = abc
        ∧ index_of (Qt.next_image all_decode 5 w') = Some 1%Z.
Proof. eexists. split; [vm_compute; reflexivity|]. split; vm_compute; reflexivity. Qed.

(** C6, amended: when a scan completes with no image, whatever the state
    before, the playback timer is stopped and the "no images" text is set,
    while the catalog, the index and the mode stay as they were; a scan of a
    folder that does not exist hands over the empty list instead of raising,
    so it ends in the same way. *)
Theorem empty_scan_pauses :
  (∀ decodes depth (w : Qt.window),
     ∃ w', Qt.on_scan_complete decodes (S depth) [] w = Py.Returned w'
           ∧ Qt.play_timer w' = false
           ∧ Viewer.info_text (Qt.image_viewer w') = Viewer.NoImages
           ∧ Qt.images w' = Qt.images w
           ∧ Qt.current_index w' = Qt.current_index w
           ∧ Qt.is_random w' = Qt.is_random w)
  ∧ (∀ (fs : Fs.filesystem) folder exts recursive,
     fs (Pathlib.str (Pathlib.of_str folder)) = None →
     ImageScanner.run fs (ImageScanner.init folder exts recursive) = [])
  ∧ (∀ decodes depth (fs : Fs.filesystem) folder exts recursive (w : Qt.window),
     fs (Pathlib.str (Pathlib.of_str folder)) = None →
     ∃ w', Qt.on_scan_complete decodes (S depth)
             (ImageScanner.run fs (ImageScanner.init folder exts recursive)) w
           = Py.Returned w'
           ∧ Qt.play_timer w' = false
           ∧ Viewer.info_text (Qt.image_viewer w') = Viewer.NoImages).
Proof.
  split; [|split].
  - intros decodes depth w. eexists. split; [reflexivity|]. done.
  - intros fs folder exts recursive Hnone.
    unfold ImageScanner.run. simpl. by rewrite Hnone.
  - intros decodes depth fs folder exts recursive w Hnone.
    unfold ImageScanner.run. simpl. rewrite Hnone.
    eexists. split; [reflexivity|]. done.
Qed.



(** ** Settings *)

Lemma load_returns f :
  Config.load f
  = Py.Returned
      match f with
      | Config.Holds (Config.Mapping d) => d ∪ Config.DEFAULT_CONFIG
      | _ => Config.DEFAULT_CONFIG
      end.
Proof. by destruct f as [| | |[d|v]]. Qed.




Lemma load_has_defaults f cfg :
  Config.load f = Py.Returned cfg →
  dom Config.DEFAULT_CONFIG ⊆ dom cfg.
Proof.
  rewrite load_returns. intros [= <-].
  destruct f as [| | |[d|v]]; try done.
  rewrite dom_union_L. apply union_subseteq_r.
Qed.

Lemma set_keeps_defaults io key v (cfg : gmap string Json.value) f :
  dom Config.DEFAULT_CONFIG ⊆ dom cfg →
  dom Config.DEFAULT_CONFIG ⊆ dom (Config.set io key v cfg f).1.1.
Proof.
  intros Hdom. unfold Config.set.
  destruct (Config.save io _ f) as [f' r]. simpl.
  rewrite dom_insert_L. etrans; [exact Hdom|apply union_subseteq_r].
Qed.

(** ** Counting files *)

Lemma count_loop_nonneg l : ∀ acc,
  (0 ≤ acc)%Z →
  (0 ≤ foldl (λ file_count (triple : list Fs.node * list Fs.node),
                (file_count + Z.of_nat (length triple.2))%Z) acc l)%Z.
Proof.
  induction l as [|t l IH]; intros acc Hacc; [done|].
  simpl. apply IH. lia.
Qed.

(** C10 on the code: a sub-directory that may not be listed is passed over
    by [os.walk], so the count of the files that could be seen comes back,
    not -1; and for a directory the result is never negative. *)
Theorem count_ignores_permission_errors :
  Counter.count_all_files (disk_with "/data" data_tree) "/data"
  = Py.Returned 1%Z
  ∧ (∀ (fs : Fs.filesystem) path s r es,
       fs path = Some (Fs.Dir s r es) →
       ∃ n, Counter.count_all_files fs path = Py.Returned n ∧ (0 ≤ n)%Z).
Proof.
  split; [vm_compute; reflexivity|].
  intros fs path s r es Hdir.
  unfold Counter.count_all_files, Counter.exists_, Counter.isdir,
    Counter.count_loop. rewrite Hdir. simpl.
  eexists. split; [reflexivity|]. by apply count_loop_nonneg.
Qed.

Lemma count_loop_app (l1 l2 : list (list Fs.node * list Fs.node)) : ∀ acc,
  foldl (λ file_count (triple : list Fs.node * list Fs.node),
           (file_count + Z.of_nat (length triple.2))%Z) acc (l1 ++ l2)
  = (foldl (λ file_count (triple : list Fs.node * list Fs.node),
              (file_count + Z.of_nat (length triple.2))%Z) acc l1
     + foldl (λ file_count (triple : list Fs.node * list Fs.node),
                (file_count + Z.of_nat (length triple.2))%Z) 0 l2)%Z.
Proof.
  revert l2. induction l1 as [|t l1 IH]; intros l2 acc; simpl.
  - revert acc. induction l2 as [|t l2 IH2]; intros acc; simpl; [lia|].
    rewrite IH2, (IH2 (0 + _)%Z). lia.
  - apply IH.
Qed.

(** On a tree whose directories can all be listed, the loop counts every
    file of the tree. *)
Lemma count_loop_listable n :
  listable n →
  foldl (λ file_count (triple : list Fs.node * list Fs.node),
           (file_count + Z.of_nat (length triple.2))%Z) 0%Z (Counter.walk n)
  = match n with
    | Fs.File _ => 0%Z
    | Fs.Dir _ _ _ => files_in n
    end.
Proof.
  induction n as [s|s r es IH] using node_ind'; intros Hl; [done|].
  inversion Hl as [|? ? Hes]; subst.
  change (Counter.walk (Fs.Dir s true es))
    with ([(List.filter (λ e, negb (Fs.is_file e)) es, List.filter Fs.is_file es)]
          ++ List.flat_map Counter.walk es).
  rewrite count_loop_app. simpl. clear Hl.
  induction es as [|e es IHes]; [done|].
  inversion IH as [|? ? He IHrest]; subst.
  inversion Hes as [|? ? Hle Hlrest]; subst.
  specialize (IHes IHrest Hlrest). specialize (He Hle).
  simpl. rewrite count_loop_app, He.
  destruct e as [f|d r es']; simpl in *; lia.
Qed.

Lemma count_all_files_listable (fs : Fs.filesystem) path s es :
  fs path = Some (Fs.Dir s true es) →
  listable (Fs.Dir s true es) →
  Counter.count_all_files fs path = Py.Returned (files_in (Fs.Dir s true es)).
Proof.
  intros Hdir Hl.
  pose proof (count_loop_listable _ Hl) as Hcount. cbv beta iota in Hcount.
  rewrite <- Hcount.
  unfold Counter.count_all_files, Counter.exists_, Counter.isdir,
    Counter.count_loop. by rewrite Hdir.
Qed.

Lemma count_missing_or_file (fs : Fs.filesystem) path :
  (fs path = None ∨ ∃ s, fs path = Some (Fs.File s)) →
  Counter.count_all_files fs path = Py.Returned (-1)%Z.
Proof.
  unfold Counter.count_all_files, Counter.exists_, Counter.isdir.
  by intros [->|[s ->]].
Qed.

(** ** The pygame player *)

Lemma pygame_load_decodes decodes d (p : Pygame.player) q :
  (0 ≤ Pygame.current_image_index p < Z.of_nat (length (Pygame.image_files p)))%Z →
  Pygame.image_files p !! Z.to_nat (Pygame.current_image_index p) = Some q →
  decodes q = true →
  Pygame._load_next_image decodes (S d) p
  = Pygame.Done (Pygame.with_surface (Some q) p).
Proof.
  intros Hi Hq Hdec. simpl.
  destruct (Pygame.image_files p) as [|x l] eqn:Hl; [simpl in Hi; lia|].
  rewrite <- Hl in *.
  destruct (decide _) as [?|_]; [lia|].
  rewrite (getitem_lookup _ _ q) by done. by rewrite Hdec.
Qed.

Lemma pygame_toggle decodes d (p : Pygame.player) :
  Pygame.image_files p ≠ [] →
  (∀ q, q ∈ Pygame.image_files p → decodes q = true) →
  ∃ p', Pygame._toggle_random_order decodes (S (S d)) p = Pygame.Done p'
        ∧ Pygame.random_order p' = negb (Pygame.random_order p)
        ∧ Pygame.current_image_index p' = 0%Z
        ∧ Pygame.image_files p' ≡ₚ Pygame.image_files p
        ∧ (Pygame.random_order p = true →
           Pygame.image_files p' = merge_sort String.le (Pygame.image_files p)
           ∧ Sorted String.le (Pygame.image_files p'))
        ∧ (Pygame.random_order p = false →
           Pygame.image_files p'
           = (Py.shuffle (Pygame.image_files p) (Pygame.rng p)).1).
Proof.
  intros Hne Hall.
  unfold Pygame._toggle_random_order.
  change (Pygame.image_files (Pygame.with_order _ p)) with (Pygame.image_files p).
  destruct (Pygame.image_files p) as [|x l] eqn:Hl; [done|]. rewrite <- Hl in *.
  change (Pygame.random_order (Pygame.with_order (negb (Pygame.random_order p)) p))
    with (negb (Pygame.random_order p)).
  set (p2 := if negb _ then _ else _).
  assert (Pygame.image_files p2 ≡ₚ Pygame.image_files p
          ∧ Pygame.random_order p2 = negb (Pygame.random_order p)
          ∧ (Pygame.random_order p = true →
             Pygame.image_files p2 = merge_sort String.le (Pygame.image_files p))
          ∧ (Pygame.random_order p = false →
             Pygame.image_files p2
             = (Py.shuffle (Pygame.image_files p) (Pygame.rng p)).1))
    as (Hperm & Hr & Hsort & Hshuf).
  { unfold p2. destruct (Pygame.random_order p); simpl.
    - unfold Pygame.sort. simpl. rewrite Hl, <- Hl. simpl.
      split; [apply merge_sort_Permutation|done].
    - unfold Pygame.shuffle. simpl. rewrite Hl, <- Hl.
      pose proof (shuffle_Permutation (Pygame.image_files p) (Pygame.rng p)) as Hp.
      destruct (Py.shuffle _ _) as [l' g]. simpl in *. done. }
  assert (0 < length (Pygame.image_files p2)) as Hlen.
  { rewrite Hperm, Hl. simpl. lia. }
  destruct (lookup_lt_is_Some_2 (Pygame.image_files p2) 0 Hlen) as [q Hq].
  rewrite (pygame_load_decodes decodes d (Pygame.with_index 0 p2) q).
  - eexists. split; [done|]. simpl. repeat split; try done.
    + apply Hsort; done.
    + rewrite Hsort by done. apply Sorted_merge_sort. apply _.
  - simpl. lia.
  - done.
  - apply Hall. rewrite <- Hperm. by eapply list_elem_of_lookup_2.
Qed.

Lemma pygame_load_fails decodes d (p : Pygame.player) q :
  in_range_files p →
  Pygame.image_files p !! Z.to_nat (Pygame.current_image_index p) = Some q →
  decodes q = false →
  Pygame._load_next_image decodes (S d) p
  = match Pygame._load_next_image decodes d
            (Pygame.with_index (ahead_files p 1) (Pygame.with_surface None p)) with
    | Pygame.Done p' => Pygame.Done p'
    | Pygame.Threw _ p' => Pygame.Done (Pygame.with_surface None p')
    end.
Proof.
  unfold in_range_files. intros Hi Hq Hdec. simpl.
  destruct (Pygame.image_files p) as [|x l] eqn:Hl; [simpl in Hi; lia|].
  rewrite <- Hl in *.
  destruct (decide _) as [?|_]; [lia|].
  rewrite (getitem_lookup _ _ q) by done. by rewrite Hdec.
Qed.

(** When the picture [k] places ahead decodes, the pygame player stops on
    the first picture ahead that decodes, one frame per skip. *)
Lemma pygame_load_skips decodes k : ∀ d (p : Pygame.player),
  in_range_files p →
  (∃ q, Pygame.image_files p !! Z.to_nat (ahead_files p k) = Some q
        ∧ decodes q = true) →
  ∃ p' j q,
    Pygame._load_next_image decodes (S (k + d)) p = Pygame.Done p'
    ∧ j ≤ k
    ∧ Pygame.current_image_index p' = ahead_files p j
    ∧ Pygame.image_files p' = Pygame.image_files p
    ∧ Pygame.image_files p !! Z.to_nat (ahead_files p j) = Some q
    ∧ decodes q = true
    ∧ Pygame.current_surface p' = Some q
    ∧ (∀ i, i < j → ∃ r, Pygame.image_files p !! Z.to_nat (ahead_files p i) = Some r
                          ∧ decodes r = false).
Proof.
  induction k as [|k IH]; intros d p Hi (q & Hq & Hdec).
  - assert (ahead_files p 0 = Pygame.current_image_index p) as H0.
    { unfold ahead_files. rewrite Z.add_0_r. by apply Z.mod_small. }
    rewrite H0 in Hq.
    exists (Pygame.with_surface (Some q) p), 0, q.
    rewrite (pygame_load_decodes decodes _ p q) by done.
    rewrite H0. repeat split; try done. intros i ?. lia.
  - assert (ahead_files p 0 = Pygame.current_image_index p) as H0.
    { unfold ahead_files. rewrite Z.add_0_r. by apply Z.mod_small. }
    destruct (getitem_in_range (Pygame.image_files p)
                (Pygame.current_image_index p) Hi) as (r & Hr & _).
    destruct (decodes r) eqn:Hdr.
    + exists (Pygame.with_surface (Some r) p), 0, r.
      rewrite (pygame_load_decodes decodes _ p r) by done.
      rewrite H0. repeat split; try done; try lia.
    + replace (S (S k + d)) with (S (S (k + d))) by lia.
      rewrite (pygame_load_fails decodes _ p r) by done.
      set (p2 := Pygame.with_index _ _).
      assert (∀ i, ahead_files p2 i = ahead_files p (S i)) as Hahead.
      { intros i. unfold p2, ahead_files. simpl.
        rewrite Zplus_mod_idemp_l. f_equal. lia. }
      destruct (IH d p2)
        as (p' & j & q' & Hrun & Hj & Hidx & Hfiles & Hl & Hdq & Hsurf & Hbefore).
      * unfold in_range_files, p2, ahead_files. simpl. apply Z.mod_pos_bound.
        unfold in_range_files in Hi. lia.
      * exists q. by rewrite Hahead.
      * exists p', (S j), q'. rewrite Hrun.
        rewrite Hahead in Hidx, Hl. simpl in Hfiles, Hl.
        repeat split; try done; try lia.
        intros i Hlt. destruct i as [|i].
        -- exists r. by rewrite H0.
        -- destruct (Hbefore i) as (r' & Hr' & Hdr'); [lia|].
           exists r'. by rewrite Hahead in Hr'.
Qed.

(** When nothing decodes, the pygame player goes round the catalog until
    the stack is used up; the [except] of the last live frame then clears the
    surface, and the catalog is still the one it was. *)
Lemma pygame_all_corrupt decodes d : ∀ (p : Pygame.player),
  in_range_files p →
  (∀ q, q ∈ Pygame.image_files p → decodes q = false) →
  ∃ p', Pygame._load_next_image decodes (S d) p = Pygame.Done p'
        ∧ Pygame.current_surface p' = None
        ∧ Pygame.image_files p' = Pygame.image_files p
        ∧ Pygame.current_image_index p' = ahead_files p (S d).
Proof.
  induction d as [|d IH]; intros p Hi Hnone;
    destruct (getitem_in_range (Pygame.image_files p)
                (Pygame.current_image_index p) Hi) as (r & Hr & _);
    rewrite (pygame_load_fails decodes _ p r);
    try done; try (apply Hnone; by eapply list_elem_of_lookup_2).
  - simpl. eexists. repeat split; try done.
  - set (p2 := Pygame.with_index _ _).
    destruct (IH p2) as (p' & Hrun & Hs & Hf & Hidx).
    + unfold in_range_files, p2, ahead_files. simpl. apply Z.mod_pos_bound.
      unfold in_range_files in Hi. lia.
    + done.
    + exists p'. rewrite Hrun. repeat split; try done.
      rewrite Hidx. unfold p2, ahead_files. simpl.
      rewrite Zplus_mod_idemp_l. f_equal. lia.
Qed.

Lemma ahead_files_reaches (p : Pygame.player) (m : nat) :
  in_range_files p →
  m < length (Pygame.image_files p) →
  let k := Z.to_nat ((Z.of_nat m - Pygame.current_image_index p)
                       `mod` Z.of_nat (length (Pygame.image_files p))) in
  k < length (Pygame.image_files p) ∧ ahead_files p k = Z.of_nat m.
Proof.
  intros Hi Hm k. unfold in_range_files in Hi.
  pose proof (Z.mod_pos_bound (Z.of_nat m - Pygame.current_image_index p)
                (Z.of_nat (length (Pygame.image_files p)))) as Hb.
  split; [lia|].
  unfold ahead_files, k. rewrite Z2Nat.id by lia.
  rewrite Zplus_mod_idemp_r.
  replace (Pygame.current_image_index p
           + (Z.of_nat m - Pygame.current_image_index p))%Z
    with (Z.of_nat m) by lia.
  apply Z.mod_small. lia.
Qed.

(** In the pygame player "next" steps to the following picture in either
    mode, without a draw, and "previous" steps back in either mode. *)
Lemma pygame_next_steps decodes d (p : Pygame.player) q :
  (0 ≤ Pygame.current_image_index p)%Z →
  (Pygame.current_image_index p + 1 < Z.of_nat (length (Pygame.image_files p)))%Z →
  Pygame.image_files p !! Z.to_nat (Pygame.current_image_index p + 1) = Some q →
  decodes q = true →
  Pygame._next_image decodes (S (S d)) p
  = Pygame.Done
      (Pygame.with_surface (Some q)
         (Pygame.with_index (Pygame.current_image_index p + 1) p)).
Proof.
  intros H0 Hlt Hq Hdec. unfold Pygame._next_image.
  destruct (Pygame.image_files p) as [|x l] eqn:Hl; [simpl in Hlt; lia|].
  rewrite <- Hl in *.
  change (Pygame.image_files (Pygame.with_index _ p)) with (Pygame.image_files p).
  change (Pygame.current_image_index (Pygame.with_index (Pygame.current_image_index p + 1) p))
    with (Pygame.current_image_index p + 1)%Z.
  destruct (decide _) as [?|_]; [lia|].
  by apply pygame_load_decodes; simpl; [lia|..].
Qed.

Lemma pygame_prev_steps decodes d (p : Pygame.player) q :
  (0 < Pygame.current_image_index p
   < Z.of_nat (length (Pygame.image_files p)))%Z →
  Pygame.image_files p !! Z.to_nat (Pygame.current_image_index p - 1) = Some q →
  decodes q = true →
  Pygame._prev_image decodes (S (S d)) p
  = Pygame.Done
      (Pygame.with_surface (Some q)
         (Pygame.with_index (Pygame.current_image_index p - 1) p)).
Proof.
  intros Hi Hq Hdec. unfold Pygame._prev_image.
  destruct (Pygame.image_files p) as [|x l] eqn:Hl; [simpl in Hi; lia|].
  rewrite <- Hl in *.
  change (Pygame.image_files (Pygame.with_index _ p)) with (Pygame.image_files p).
  change (Pygame.current_image_index (Pygame.with_index (Pygame.current_image_index p - 1) p))
    with (Pygame.current_image_index p - 1)%Z.
  destruct (decide _) as [?|_]; [lia|].
  by apply pygame_load_decodes; simpl; [lia|..].
Qed.

(** ** Decode failures *)

(** C1, as stated, fails: with a.png, b.png, c.png all failing to decode,
    no stack depth lets [show_current_image] of the PySide6 player return,
    so no "no images" display is ever reached; the pygame player, given ten
    frames, makes ten attempts (more than three passes) and is left with the
    catalog it had. *)
Lemma all_corrupt_never_settles :
  (¬ ∃ depth w',
       Qt.show_current_image none_decodes depth (window0 abc 1 false [])
       = Py.Returned w')
  ∧ files_of (Pygame._load_next_image none_decodes 10 (player0 abc 0 false []))
    = Some (abc, 1%Z, None).
Proof.
  split; [|vm_compute; reflexivity].
  intros (depth & w' & Hrun).
  destruct (never_returns none_decodes depth (window0 abc 1 false []))
    as [H _].
  - unfold in_range. simpl. lia.
  - done.
  - rewrite H in Hrun. done.
Qed.

(** C1, amended: when the picture at the current index fails to decode the
    player moves on to the next index and tries again.  If some picture of
    the catalog decodes, this ends within one pass of the catalog, on the
    first picture after the current index that decodes, with the catalog
    unchanged: in the PySide6 player in sequential mode, in the pygame player
    in either mode.  With a.png, b.png, c.png, only b.png failing and the
    index on b.png, the skip lands on c.png. *)
Theorem decode_failure_skips_forward :
  (∀ decodes d (w : Qt.window),
     Qt.is_random w = false →
     (0 ≤ Qt.current_index w < Z.of_nat (length (Qt.images w)))%Z →
     str_setting (Qt.config w) "scale_mode" (Json.Str "fit") →
     (∃ p, p ∈ Qt.images w ∧ decodes p = true) →
     ∃ w' j p,
       Qt.show_current_image decodes (2 * length (Qt.images w) + d) w
       = Py.Returned w'
       ∧ j < length (Qt.images w)
       ∧ Qt.current_index w' = ahead w j
       ∧ Qt.images w' = Qt.images w
       ∧ Qt.images w !! Z.to_nat (ahead w j) = Some p
       ∧ decodes p = true
       ∧ Viewer.current_pixmap (Qt.image_viewer w') = Some p
       ∧ (∀ i, i < j → ∃ q, Qt.images w !! Z.to_nat (ahead w i) = Some q
                             ∧ decodes q = false))
  ∧ (∀ decodes d (p : Pygame.player),
     (0 ≤ Pygame.current_image_index p
      < Z.of_nat (length (Pygame.image_files p)))%Z →
     (∃ q, q ∈ Pygame.image_files p ∧ decodes q = true) →
     ∃ p' j q,
       Pygame._load_next_image decodes (length (Pygame.image_files p) + d) p
       = Pygame.Done p'
       ∧ j < length (Pygame.image_files p)
       ∧ Pygame.current_image_index p' = ahead_files p j
       ∧ Pygame.image_files p' = Pygame.image_files p
       ∧ Pygame.image_files p !! Z.to_nat (ahead_files p j) = Some q
       ∧ decodes q = true
       ∧ Pygame.current_surface p' = Some q
       ∧ (∀ i, i < j → ∃ r,
            Pygame.image_files p !! Z.to_nat (ahead_files p i) = Some r
            ∧ decodes r = false))
  ∧ (∃ w', Qt.show_current_image only_b_fails 3 (window0 abc 1 false [])
           = Py.Returned w'
           ∧ Qt.current_index w' = 2%Z
           ∧ Viewer.current_pixmap (Qt.image_viewer w') = Some "c.png"%string)
  ∧ files_of (Pygame._load_next_image only_b_fails 2 (player0 abc 1 false []))
    = Some (abc, 2%Z, Some "c.png"%string).
Proof.
  split; [|split; [|split]].
  - intros decodes d w Hseq Hi Hs (p & Hin & Hdec).
    apply list_elem_of_lookup in Hin as [m Hm].
    pose proof (lookup_lt_Some _ _ _ Hm) as Hlt.
    destruct (ahead_reaches w m Hi Hlt) as [Hk Hahead].
    set (k := Z.to_nat _) in *.
    destruct (show_current_image_skips decodes k
                (2 * length (Qt.images w) + d - 1 - 2 * k) w)
      as (w' & j & r & Hrun & Hj & Hidx & Him & _ & _ & _ & _ & Hl & Hdr & Hpix & Hbefore);
      try done.
    { exists p. rewrite Hahead, Nat2Z.id. done. }
    exists w', j, r.
    replace (S (2 * k + (2 * length (Qt.images w) + d - 1 - 2 * k)))
      with (2 * length (Qt.images w) + d) in Hrun by lia.
    repeat split; try done. lia.
  - intros decodes d p Hi (q & Hin & Hdec).
    apply list_elem_of_lookup in Hin as [m Hm].
    pose proof (lookup_lt_Some _ _ _ Hm) as Hlt.
    destruct (ahead_files_reaches p m Hi Hlt) as [Hk Hahead].
    set (k := Z.to_nat _) in *.
    destruct (pygame_load_skips decodes k
                (length (Pygame.image_files p) + d - 1 - k) p)
      as (p' & j & r & Hrun & Hj & Hidx & Hf & Hl & Hdr & Hs & Hbefore);
      try done.
    { exists q. rewrite Hahead, Nat2Z.id. done. }
    exists p', j, r.
    replace (S (k + (length (Pygame.image_files p) + d - 1 - k)))
      with (length (Pygame.image_files p) + d) in Hrun by lia.
    repeat split; try done. lia.
  - eexists. split; [vm_compute; reflexivity|]. done.
  - vm_compute. reflexivity.
Qed.

(** ** The order toggle *)



(** ** The theorems at concrete inputs *)



Lemma index_stays_in_range_witness :
  ∃ w', Keys.presses only_b_fails 7 [Keys.Next; Keys.Prev; Keys.Next]
          (window0 abc 0 false [])
        = Py.Returned w'
        ∧ Qt.images w' = abc
        ∧ (0 ≤ Qt.current_index w' < 3)%Z.
Proof.
  destruct index_stays_in_range as (_ & Htotal & _).
  apply (Htotal only_b_fails 7 [Keys.Next; Keys.Prev; Keys.Next]
           (window0 abc 0 false [])).
  - discriminate.
  - reflexivity.
  - simpl. lia.
  - exists "fit"%string. reflexivity.
  - exists "a.png"%string. split; [left|reflexivity].
  - simpl. lia.
Defined.

Lemma decode_failure_skips_forward_witness :
  ∃ w' j p,
    Qt.show_current_image only_b_fails 6 (window0 abc 1 false [])
    = Py.Returned w'
    ∧ j < 3
    ∧ Qt.current_index w' = ahead (window0 abc 1 false []) j
    ∧ Qt.images w' = abc
    ∧ abc !! Z.to_nat (ahead (window0 abc 1 false []) j) = Some p
    ∧ only_b_fails p = true
    ∧ Viewer.current_pixmap (Qt.image_viewer w') = Some p
    ∧ (∀ i, i < j →
         ∃ q, abc !! Z.to_nat (ahead (window0 abc 1 false []) i) = Some q
              ∧ only_b_fails q = false).
Proof.
  destruct decode_failure_skips_forward as (Hqt & _).
  apply (Hqt only_b_fails 0 (window0 abc 1 false [])).
  - reflexivity.
  - simpl. lia.
  - exists "fit"%string. reflexivity.
  - exists "c.png"%string. split; [right; right; left|reflexivity].
Defined.


Lemma empty_scan_pauses_witness :
  ImageScanner.run (λ _, None) (ImageScanner.init "images" default_extensions true)
  = [].
Proof.
  destruct empty_scan_pauses as (_ & Hmissing & _).
  apply Hmissing. reflexivity.
Defined.






Lemma count_ignores_permission_errors_witness :
  ∃ n, Counter.count_all_files (disk_with "/data" data_tree) "/data"
       = Py.Returned n ∧ (0 ≤ n)%Z.
Proof.
  destruct count_ignores_permission_errors as [_ Hdir].
  apply (Hdir (disk_with "/data" data_tree) "/data"%string "data"%string true
           [Fs.File "a.txt"; Fs.Dir "private" false [Fs.File "b.txt"]]).
  reflexivity.
Defined.

(** * Further properties of the code *)

(** ** Scans that find pictures *)

Lemma shuffle_if_random_facts (w : Qt.window) :
  Qt.images (Qt.shuffle_if_random w) ≡ₚ Qt.images w
  ∧ (Qt.is_random w = false → Qt.shuffle_if_random w = w)
  ∧ Qt.current_index (Qt.shuffle_if_random w) = Qt.current_index w
  ∧ Qt.play_timer (Qt.shuffle_if_random w) = Qt.play_timer w
  ∧ Qt.image_viewer (Qt.shuffle_if_random w) = Qt.image_viewer w
  ∧ Qt.config (Qt.shuffle_if_random w) = Qt.config w
  ∧ Qt.is_random (Qt.shuffle_if_random w) = Qt.is_random w.
Proof.
  unfold Qt.shuffle_if_random. destruct (Qt.is_random w) eqn:Hr.
  - pose proof (shuffle_Permutation (Qt.images w) (Qt.rng w)) as Hperm.
    destruct (Py.shuffle _ _) as [l g]. simpl in *. done.
  - done.
Qed.

Lemma on_scan_complete_first decodes d found (w : Qt.window) :
  Qt.images w = [] →
  found ≠ [] →
  Qt.on_scan_complete decodes (S d) found w
  = (w3 ← Qt.show_current_image decodes d
            (Qt.with_index 0 (Qt.shuffle_if_random (Qt.with_images found w)));
     Py.Returned (Qt.with_timer true w3)).
Proof.
  intros Hempty Hne. unfold Qt.on_scan_complete.
  destruct found as [|x l]; [done|]. rewrite Hempty. simpl length.
  by destruct (decide (0 = 0)).
Qed.

Lemma on_scan_complete_later decodes d found (w : Qt.window) :
  Qt.images w ≠ [] →
  found ≠ [] →
  Qt.on_scan_complete decodes (S d) found w
  = Py.Returned (Qt.shuffle_if_random (Qt.with_images found w)).
Proof.
  intros Hknown Hne. unfold Qt.on_scan_complete.
  destruct found as [|x l]; [done|].
  destruct (decide (length (Qt.images w) = 0)) as [H0|_]; [|done].
  by destruct (Qt.images w).
Qed.

(** X1: the first scan that finds pictures (none were known before) makes
    the catalog a permutation of the list found, the list itself in
    sequential mode, puts the index at 0, shows the picture there and starts
    the playback timer. *)
Theorem first_scan_starts_playback :
  ∀ decodes d found (w : Qt.window),
    Qt.images w = [] →
    found ≠ [] →
    str_setting (Qt.config w) "scale_mode" (Json.Str "fit") →
    (∀ p, p ∈ found → decodes p = true) →
    ∃ w' p,
      Qt.on_scan_complete decodes (S (S d)) found w = Py.Returned w'
      ∧ Qt.play_timer w' = true
      ∧ Qt.current_index w' = 0%Z
      ∧ Qt.images w' ≡ₚ found
      ∧ (Qt.is_random w = false → Qt.images w' = found)
      ∧ Qt.images w' !! 0 = Some p
      ∧ Viewer.current_pixmap (Qt.image_viewer w') = Some p.
Proof.
  intros decodes d found w Hempty Hne Hs Hall.
  rewrite on_scan_complete_first by done.
  destruct (shuffle_if_random_facts (Qt.with_images found w))
    as (Hperm & Hseq & _ & _ & _ & Hcfg & _).
  set (w2 := Qt.shuffle_if_random _) in *. simpl in Hperm, Hseq, Hcfg.
  assert (0 < length (Qt.images w2)) as Hlen.
  { rewrite Hperm. destruct found; [done|simpl; lia]. }
  destruct (lookup_lt_is_Some_2 (Qt.images w2) 0 Hlen) as [p Hp].
  destruct (show_current_image_decodes decodes d (Qt.with_index 0 w2) p)
    as (w3 & Hrun & Hi & Him & _ & _ & _ & _ & Hpix & _).
  - simpl. lia.
  - done.
  - apply Hall. rewrite <- Hperm. by eapply list_elem_of_lookup_2.
  - simpl. by rewrite Hcfg.
  - exists (Qt.with_timer true w3), p. rewrite Hrun. simpl in *.
    rewrite Him. repeat split; try done.
    intros Hr. by rewrite Hseq.
Qed.

(** X2: a later scan that finds pictures (some were known before) replaces
    the catalog by a permutation of the list found, the list itself in
    sequential mode, and touches nothing else: the index, the picture on
    screen, the info text and the playback timer stay as they were, whatever
    the length of the new catalog. *)
Theorem later_scan_replaces_catalog_only :
  ∀ decodes d found (w : Qt.window),
    Qt.images w ≠ [] →
    found ≠ [] →
    ∃ w',
      Qt.on_scan_complete decodes (S d) found w = Py.Returned w'
      ∧ Qt.images w' ≡ₚ found
      ∧ (Qt.is_random w = false → Qt.images w' = found)
      ∧ Qt.current_index w' = Qt.current_index w
      ∧ Qt.play_timer w' = Qt.play_timer w
      ∧ Qt.image_viewer w' = Qt.image_viewer w
      ∧ Qt.is_random w' = Qt.is_random w
      ∧ Qt.config w' = Qt.config w.
Proof.
  intros decodes d found w Hknown Hne.
  rewrite on_scan_complete_later by done.
  destruct (shuffle_if_random_facts (Qt.with_images found w))
    as (Hperm & Hseq & Hi & Ht & Hv & Hc & Hr).
  eexists. split; [done|]. repeat split; try done.
  intros Hmode. by rewrite Hseq.
Qed.

(** X3: once a catalog is known, a scan that finds nothing followed by a
    scan that finds pictures leaves the player stopped: the second scan takes
    the new catalog but does not restart the playback timer, and the "no
    images" text is still set. *)
Theorem playback_stays_stopped_after_empty_scan :
  ∀ decodes d d' found (w : Qt.window),
    Qt.images w ≠ [] →
    found ≠ [] →
    ∃ w1 w2,
      Qt.on_scan_complete decodes (S d) [] w = Py.Returned w1
      ∧ Qt.on_scan_complete decodes (S d') found w1 = Py.Returned w2
      ∧ Qt.play_timer w2 = false
      ∧ Viewer.info_text (Qt.image_viewer w2) = Viewer.NoImages
      ∧ Qt.images w2 ≡ₚ found
      ∧ Qt.current_index w2 = Qt.current_index w.
Proof.
  intros decodes d d' found w Hknown Hne.
  set (w1 := Qt.with_timer false
               (Qt.with_viewer
                  (Viewer.set_info Viewer.NoImages (Qt.image_viewer w)) w)).
  exists w1, (Qt.shuffle_if_random (Qt.with_images found w1)).
  split; [reflexivity|].
  split; [by apply on_scan_complete_later|].
  destruct (shuffle_if_random_facts (Qt.with_images found w1))
    as (Hperm & _ & Hi & Ht & Hv & _ & _).
  rewrite Ht, Hv, Hi. done.
Qed.

(** ** An index outside the catalog *)

Lemma getitem_beyond {A} (l : list A) (i : Z) :
  (Z.of_nat (length l) ≤ i)%Z → Py.getitem l i = Py.Raised Py.IndexError.
Proof.
  intros Hi. unfold Py.getitem.
  destruct (decide (i < 0)%Z) as [?|_]; [lia|].
  by destruct (decide _) as [?|_]; [lia|].
Qed.

Lemma show_current_image_beyond decodes d (w : Qt.window) :
  Qt.images w ≠ [] →
  (Z.of_nat (length (Qt.images w)) ≤ Qt.current_index w)%Z →
  Qt.show_current_image decodes (S d) w = Py.Raised Py.IndexError.
Proof.
  intros Hne Hi. simpl. destruct (Qt.images w) as [|x l] eqn:E; [done|].
  rewrite <- E in *. by rewrite getitem_beyond.
Qed.

Lemma cycle_scale_mode_unfold decodes io d (w : Qt.window) :
  ∃ next_mode,
    Py.getitem Controls.modes
      (Z.of_nat
         ((Controls.current_idx
             (Config.get (Qt.config w) "scale_mode" (Json.Str "fit")) + 1)
            `mod` length Controls.modes))
    = Py.Returned next_mode
    ∧ Controls.cycle_scale_mode decodes io (S d) w
      = Qt.show_current_image decodes d
          (Qt.with_viewer
             {| Viewer.scale_mode := Json.Str next_mode;
                Viewer.current_pixmap := Viewer.current_pixmap (Qt.image_viewer w);
                Viewer.info_text := Viewer.info_text (Qt.image_viewer w) |}
             (Controls.with_settings
                (<["scale_mode"%string:=Json.Str next_mode]> (Qt.config w))
                (Config.json_dump io
                   (<["scale_mode"%string:=Json.Str next_mode]> (Qt.config w))
                   (Qt.disk w)).1
                w)).
Proof.
  unfold Controls.cycle_scale_mode.
  set (i := (_ `mod` _)).
  assert (i < 3) as Hi by (apply Nat.mod_upper_bound; done).
  destruct (getitem_in_range Controls.modes (Z.of_nat i)) as (m & _ & Hm);
    [simpl; lia|].
  exists m. split; [done|]. rewrite Hm. simpl.
  unfold Config.set, Config.save. by destruct io.
Qed.

(** X4: when the index lies beyond the end of a non-empty catalog (as a
    scan that found fewer pictures can leave it), every handler that shows
    the current picture without moving the index first raises [IndexError]:
    [show_current_image], the order toggle, the scale-mode cycle, and
    "previous" in random mode. *)
Theorem index_beyond_catalog_raises :
  ∀ decodes io d (w : Qt.window),
    Qt.images w ≠ [] →
    (Z.of_nat (length (Qt.images w)) ≤ Qt.current_index w)%Z →
    Qt.show_current_image decodes (S d) w = Py.Raised Py.IndexError
    ∧ Qt.toggle_random decodes io (S (S d)) w = Py.Raised Py.IndexError
    ∧ Controls.cycle_scale_mode decodes io (S (S d)) w
      = Py.Raised Py.IndexError
    ∧ (Qt.is_random w = true →
       Qt.prev_image decodes (S (S d)) w = Py.Raised Py.IndexError).
Proof.
  intros decodes io d w Hne Hi. split; [|split; [|split]].
  - by apply show_current_image_beyond.
  - rewrite toggle_random_unfold.
    set (w1 := Qt.with_random _ _ _ w).
    destruct (shuffle_if_random_facts w1) as (Hperm & _ & Hidx & _).
    apply show_current_image_beyond.
    + intros E. rewrite E in Hperm. apply Permutation_nil_l in Hperm. done.
    + rewrite Hidx, Hperm. done.
  - destruct (cycle_scale_mode_unfold decodes io (S d) w) as (m & _ & ->).
    by apply show_current_image_beyond.
  - intros Hr. rewrite prev_image_unfold by done.
    unfold Qt.retreat. rewrite Hr. by apply show_current_image_beyond.
Qed.

(** X5: in sequential mode "next" and "previous" bring any index, even one
    outside the catalog, back inside it: on a non-empty catalog with a
    picture that decodes, the call returns with the catalog unchanged and
    the index in [0, len(catalog)). *)
Theorem sequential_step_repairs_index :
  ∀ decodes key (w : Qt.window) depth,
    Qt.images w ≠ [] →
    Qt.is_random w = false →
    str_setting (Qt.config w) "scale_mode" (Json.Str "fit") →
    (∃ p, p ∈ Qt.images w ∧ decodes p = true) →
    2 * length (Qt.images w) + 1 ≤ depth →
    ∃ w', Keys.press decodes depth key w = Py.Returned w'
          ∧ Qt.images w' = Qt.images w
          ∧ (0 ≤ Qt.current_index w' < Z.of_nat (length (Qt.images w)))%Z.
Proof.
  intros decodes key w depth Hne Hseq Hs Hp Hdepth.
  destruct depth as [|D]; [lia|].
  assert (0 < Z.of_nat (length (Qt.images w)))%Z as Hlen
    by (destruct (Qt.images w); [done|simpl; lia]).
  destruct key; unfold Keys.press.
  - rewrite next_image_unfold by done.
    destruct (show_current_image_finds decodes (Qt.advance w) D)
      as (w' & Hrun & Him & _ & _ & Hi').
    + by rewrite advance_is_random.
    + unfold in_range. rewrite advance_images. by apply advance_in_range.
    + by rewrite advance_config.
    + by rewrite advance_images.
    + rewrite advance_images. lia.
    + exists w'. rewrite advance_images in Him. unfold in_range in Hi'.
      rewrite Him in Hi'. done.
  - rewrite prev_image_unfold by done.
    assert (Qt.retreat w
            = Qt.with_index
                ((Qt.current_index w - 1) `mod` Z.of_nat (length (Qt.images w)))%Z
                w) as Hret by (unfold Qt.retreat; by rewrite Hseq).
    destruct (show_current_image_finds decodes (Qt.retreat w) D)
      as (w' & Hrun & Him & _ & _ & Hi').
    + by rewrite Hret.
    + rewrite Hret. unfold in_range. simpl. by apply Z.mod_pos_bound.
    + by rewrite Hret.
    + by rewrite retreat_images.
    + rewrite retreat_images. lia.
    + exists w'. rewrite retreat_images in Him. unfold in_range in Hi'.
      rewrite Him in Hi'. done.
Qed.

(** X6: when no picture of a non-empty catalog decodes, showing the current
    picture or pressing "next" never returns, in either mode: whatever the
    depth of stack left, the calls between [show_current_image] and
    [next_image] end in [RecursionError]. *)
Theorem corrupt_catalog_exhausts_stack :
  ∀ decodes depth (w : Qt.window),
    (0 ≤ Qt.current_index w < Z.of_nat (length (Qt.images w)))%Z →
    (∀ p, p ∈ Qt.images w → decodes p = false) →
    Qt.show_current_image decodes depth w = Py.Raised Py.RecursionError
    ∧ Qt.next_image decodes depth w = Py.Raised Py.RecursionError.
Proof. intros decodes depth w Hi Hnone. by apply never_returns. Qed.

(** ** Settings in memory and on disk *)

(** X7: settings built by [load] hold every key of the defaults, [set]
    keeps it so, and on such settings [get] returns the stored value whatever
    fallback the call site passes: the fallbacks written at the call sites
    are never used. *)
Theorem call_site_fallbacks_unused :
  (∀ f cfg,
     Config.load f = Py.Returned cfg →
     dom Config.DEFAULT_CONFIG ⊆ dom cfg)
  ∧ (∀ io key v (cfg : gmap string Json.value) f,
     dom Config.DEFAULT_CONFIG ⊆ dom cfg →
     dom Config.DEFAULT_CONFIG ⊆ dom (Config.set io key v cfg f).1.1)
  ∧ (∀ (cfg : gmap string Json.value) k fallback,
     dom Config.DEFAULT_CONFIG ⊆ dom cfg →
     k ∈ dom Config.DEFAULT_CONFIG →
     ∃ v, cfg !! k = Some v ∧ Config.get cfg k fallback = v).
Proof.
  split; [|split].
  - intros f cfg. apply load_has_defaults.
  - intros io key v cfg f. apply set_keeps_defaults.
  - intros cfg k fallback Hdom Hk.
    apply Hdom, elem_of_dom in Hk as [v Hv].
    exists v. split; [done|]. unfold Config.get. by rewrite Hv.
Qed.

(** X8: what a reload finds after [set].  When the file was written, the
    reloaded settings hold every key of the settings in memory with the same
    value; when the file could not be opened, a reload gives what it gave
    before the call, without the new value; when the dump broke off, a reload
    gives the bare defaults. *)
Theorem set_then_reload :
  ∀ key v (cfg : gmap string Json.value) f,
    (∃ cfg',
       Config.load (Config.set Config.Written key v cfg f).1.2
       = Py.Returned cfg'
       ∧ cfg' !! key = Some v
       ∧ ∀ k x, (Config.set Config.Written key v cfg f).1.1 !! k = Some x →
                cfg' !! k = Some x)
    ∧ Config.load (Config.set Config.OpenFailed key v cfg f).1.2
      = Config.load f
    ∧ Config.load (Config.set Config.DumpFailed key v cfg f).1.2
      = Py.Returned Config.DEFAULT_CONFIG.
Proof.
  intros key v cfg f. split; [|split]; [|done|done].
  exists (<[key:=v]> cfg ∪ Config.DEFAULT_CONFIG). split; [done|]. split.
  - apply lookup_union_Some_l. apply lookup_insert_eq.
  - intros k x Hk. apply lookup_union_Some_l. exact Hk.
Qed.

(** ** The scale-mode cycle and the key dispatch *)

Lemma next_mode_following (current : Json.value) :
  Py.getitem Controls.modes
    (Z.of_nat ((Controls.current_idx current + 1) `mod` length Controls.modes))
  = Py.Returned (following current).
Proof.
  destruct current as [| | | |s| |]; try reflexivity.
  unfold Controls.current_idx, following. simpl.
  destruct (decide ("fit"%string = s)) as [<-|Hfit]; [reflexivity|].
  destruct (decide ("fill"%string = s)) as [<-|Hfill]; [reflexivity|].
  destruct (decide (s = "fill"%string)) as [->|_]; [done|].
  destruct (decide ("stretch"%string = s)) as [<-|Hstretch]; [reflexivity|].
  destruct (decide (s = "stretch"%string)) as [->|_]; [done|].
  reflexivity.
Qed.

Lemma returns_images decodes depth : ∀ (w w' : Qt.window),
  (Qt.show_current_image decodes depth w = Py.Returned w' →
   Qt.images w' = Qt.images w)
  ∧ (Qt.next_image decodes depth w = Py.Returned w' →
     Qt.images w' = Qt.images w).
Proof.
  induction depth as [|d IH]; intros w w'; [by split|]. split.
  - simpl. destruct (Qt.images w) as [|x l] eqn:Himg; [by intros [= <-]|].
    rewrite <- Himg.
    destruct (Py.getitem (Qt.images w) (Qt.current_index w)) as [p|e]; [|done].
    simpl. unfold Viewer.set_image. destruct (decodes p).
    + destruct (Qt.upper _); simpl; [|done]. by intros [= <-].
    + intros Hrun. by apply IH in Hrun.
  - destruct (Qt.images w) as [|x l] eqn:Himg.
    + simpl. rewrite Himg. by intros [= <-].
    + assert (Qt.images w ≠ []) as Hne by (rewrite Himg; discriminate).
      rewrite next_image_unfold by exact Hne. rewrite <- Himg.
      intros Hrun. apply IH in Hrun. by rewrite advance_images in Hrun.
Qed.

Lemma returns_scale_mode decodes depth : ∀ (w w' : Qt.window),
  (Qt.show_current_image decodes depth w = Py.Returned w' →
   Qt.images w ≠ [] →
   Viewer.scale_mode (Qt.image_viewer w')
   = Config.get (Qt.config w) "scale_mode" (Json.Str "fit"))
  ∧ (Qt.next_image decodes depth w = Py.Returned w' →
     Qt.images w ≠ [] →
     Viewer.scale_mode (Qt.image_viewer w')
     = Config.get (Qt.config w) "scale_mode" (Json.Str "fit")).
Proof.
  induction depth as [|d IH]; intros w w'; [by split|]. split.
  - intros Hrun Hne. revert Hrun. simpl.
    destruct (Qt.images w) as [|x l] eqn:Himg; [done|]. rewrite <- Himg.
    destruct (Py.getitem (Qt.images w) (Qt.current_index w)) as [p|e]; [|done].
    simpl. unfold Viewer.set_image. destruct (decodes p).
    + destruct (Qt.upper _); simpl; [|done]. by intros [= <-].
    + intros Hrun. apply IH in Hrun; [done|]. simpl. by rewrite Himg.
  - intros Hrun Hne. rewrite next_image_unfold in Hrun by done.
    apply IH in Hrun.
    + by rewrite advance_config in Hrun.
    + by rewrite advance_images.
Qed.

Lemma show_current_image_empty decodes d (w : Qt.window) :
  Qt.images w = [] → Qt.show_current_image decodes (S d) w = Py.Returned w.
Proof. intros Hempty. simpl. by rewrite Hempty. Qed.

(** X9: the scale-mode cycle stores the next mode of the cycle fit, fill,
    stretch (fill after a setting that is none of the three) in the settings
    and in the viewer, and leaves catalog and index alone; three steps from
    one of the three modes come back to it.  This holds on an empty catalog
    and whenever the current picture decodes. *)
Theorem cycle_scale_mode_cycles :
  (∀ decodes io d (w : Qt.window),
     (Qt.images w = []
      ∨ ∃ p, (0 ≤ Qt.current_index w < Z.of_nat (length (Qt.images w)))%Z
             ∧ Qt.images w !! Z.to_nat (Qt.current_index w) = Some p
             ∧ decodes p = true) →
     ∃ w',
       Controls.cycle_scale_mode decodes io (S (S d)) w = Py.Returned w'
       ∧ Qt.config w' !! "scale_mode"%string
         = Some (Json.Str
                   (following
                      (Config.get (Qt.config w) "scale_mode" (Json.Str "fit"))))
       ∧ Viewer.scale_mode (Qt.image_viewer w')
         = Json.Str
             (following
                (Config.get (Qt.config w) "scale_mode" (Json.Str "fit")))
       ∧ Qt.images w' = Qt.images w
       ∧ Qt.current_index w' = Qt.current_index w
       ∧ Qt.is_random w' = Qt.is_random w)
  ∧ (∀ current, following current ∈ Controls.modes)
  ∧ (∀ m, m ∈ Controls.modes →
          following (Json.Str (following (Json.Str (following (Json.Str m)))))
          = m).
Proof.
  split; [|split].
  - intros decodes io d w Hcase.
    destruct (cycle_scale_mode_unfold decodes io (S d) w) as (m & Hm & ->).
    rewrite next_mode_following in Hm. injection Hm as <-.
    set (w1 := Qt.with_viewer _ _).
    destruct Hcase as [Hempty|(p & Hi & Hp & Hdec)].
    + exists w1. split; [by apply show_current_image_empty|].
      simpl. by rewrite lookup_insert_eq.
    + destruct (show_current_image_decodes decodes d w1 p)
        as (w' & Hrun & Hidx & Him & Hr & Hc & _ & _ & _ & _); try done.
      { eexists. unfold Config.get. simpl. by rewrite lookup_insert_eq. }
      exists w'. split; [done|]. rewrite Hc, Him, Hidx, Hr. simpl.
      rewrite lookup_insert_eq. repeat split; try done.
      apply returns_scale_mode in Hrun.
      * rewrite Hrun. unfold Config.get. simpl. by rewrite lookup_insert_eq.
      * simpl. intros E. rewrite E in Hi. simpl in Hi. lia.
  - intros current. unfold following, Controls.modes.
    destruct current; repeat case_decide;
      repeat (try (by left); right).
  - intros m Hm. unfold Controls.modes in Hm.
    repeat (apply elem_of_cons in Hm as [->|Hm]; [reflexivity|]).
    by apply not_elem_of_nil in Hm.
Qed.

Lemma advance_frame (w : Qt.window) :
  Qt.play_timer (Qt.advance w) = Qt.play_timer w
  ∧ Qt.disk (Qt.advance w) = Qt.disk w.
Proof.
  unfold Qt.advance. destruct (Qt.is_random w); [|done].
  by destruct (Py.randint _ _ _).
Qed.

(** Showing a picture, and moving on after a failure, leaves the catalog,
    the mode, the settings, the settings file and the playback timer as they
    were. *)
Lemma returns_frame decodes depth : ∀ (w w' : Qt.window),
  (Qt.show_current_image decodes depth w = Py.Returned w' →
   Qt.images w' = Qt.images w ∧ Qt.is_random w' = Qt.is_random w
   ∧ Qt.config w' = Qt.config w ∧ Qt.disk w' = Qt.disk w
   ∧ Qt.play_timer w' = Qt.play_timer w)
  ∧ (Qt.next_image decodes depth w = Py.Returned w' →
     Qt.images w' = Qt.images w ∧ Qt.is_random w' = Qt.is_random w
     ∧ Qt.config w' = Qt.config w ∧ Qt.disk w' = Qt.disk w
     ∧ Qt.play_timer w' = Qt.play_timer w).
Proof.
  induction depth as [|d IH]; intros w w'; [by split|]. split.
  - simpl. destruct (Qt.images w) as [|x l] eqn:Himg; [by intros [= <-]|].
    rewrite <- Himg.
    destruct (Py.getitem (Qt.images w) (Qt.current_index w)) as [p|e]; [|done].
    simpl. unfold Viewer.set_image. destruct (decodes p).
    + destruct (Qt.upper _); simpl; [|done]. by intros [= <-].
    + intros Hrun. by apply IH in Hrun.
  - destruct (Qt.images w) as [|x l] eqn:Himg.
    + simpl. rewrite Himg. by intros [= <-].
    + assert (Qt.images w ≠ []) as Hne by (rewrite Himg; discriminate).
      rewrite next_image_unfold by exact Hne. rewrite <- Himg.
      intros Hrun. apply IH in Hrun.
      destruct (advance_frame w) as [Ht Hd].
      by rewrite advance_images, advance_is_random, advance_config, Ht, Hd
        in Hrun.
Qed.

Lemma prev_image_frame decodes depth (w w' : Qt.window) :
  Qt.prev_image decodes depth w = Py.Returned w' →
  Qt.images w' = Qt.images w ∧ Qt.is_random w' = Qt.is_random w
  ∧ Qt.config w' = Qt.config w ∧ Qt.disk w' = Qt.disk w
  ∧ Qt.play_timer w' = Qt.play_timer w.
Proof.
  destruct depth as [|d]; [done|].
  destruct (Qt.images w) as [|x l] eqn:Himg.
  - simpl. rewrite Himg. by intros [= <-].
  - assert (Qt.images w ≠ []) as Hne by (rewrite Himg; discriminate).
    rewrite prev_image_unfold by exact Hne. rewrite <- Himg.
    intros Hrun. apply (returns_frame decodes d) in Hrun.
    unfold Qt.retreat in Hrun.
    destruct (Qt.is_random w) eqn:E; simpl in Hrun; rewrite ?E in Hrun;
      exact Hrun.
Qed.

Lemma toggle_info_window io (a a' : Controls.app) :
  Controls.toggle_info io a = Py.Returned a' →
  Qt.images (Controls.window a') = Qt.images (Controls.window a)
  ∧ Qt.current_index (Controls.window a') = Qt.current_index (Controls.window a)
  ∧ Qt.is_random (Controls.window a') = Qt.is_random (Controls.window a)
  ∧ Qt.image_viewer (Controls.window a') = Qt.image_viewer (Controls.window a)
  ∧ Qt.rng (Controls.window a') = Qt.rng (Controls.window a)
  ∧ Qt.play_timer (Controls.window a') = Qt.play_timer (Controls.window a).
Proof.
  unfold Controls.toggle_info, Config.set, Config.save.
  destruct io; simpl; by intros [= <-].
Qed.

Lemma toggle_clock_window io (a a' : Controls.app) :
  Controls.toggle_clock io a = Py.Returned a' →
  Qt.images (Controls.window a') = Qt.images (Controls.window a)
  ∧ Qt.current_index (Controls.window a') = Qt.current_index (Controls.window a)
  ∧ Qt.is_random (Controls.window a') = Qt.is_random (Controls.window a)
  ∧ Qt.image_viewer (Controls.window a') = Qt.image_viewer (Controls.window a)
  ∧ Qt.rng (Controls.window a') = Qt.rng (Controls.window a)
  ∧ Qt.play_timer (Controls.window a') = Qt.play_timer (Controls.window a).
Proof.
  unfold Controls.toggle_clock, Config.set, Config.save.
  destruct io; simpl; by intros [= <-].
Qed.

Lemma start_scan_window (a a' : Controls.app) :
  Controls.start_scan a = Py.Returned a' →
  Controls.window a' = Controls.window a.
Proof.
  unfold Controls.start_scan.
  destruct (Config.get _ "image_folder" _); try done.
  destruct (Controls.iterate _) as [items|]; [|done]. simpl.
  destruct (Controls.strings items); [|done]. simpl. by intros [= <-].
Qed.

(** X10: what a key press can change.  A press that returns leaves the
    catalog a permutation of what it was, and the same list unless the key
    is R; the keys F, I, C, M, S, P and every key without a binding leave
    catalog, index, mode, generator and the picture on screen untouched;
    the playback timer is changed by P, which flips it, and by the closing
    keys Escape, Q and X, which stop it, and by no other key. *)
Theorem key_press_frame :
  ∀ decodes io depth k (a a' : Controls.app),
    Controls.keyPressEvent decodes io depth k a = Py.Returned a' →
    Qt.images (Controls.window a') ≡ₚ Qt.images (Controls.window a)
    ∧ (k ≠ Controls.Key_R →
       Qt.images (Controls.window a') = Qt.images (Controls.window a))
    ∧ (quiet_key k = true →
       Qt.current_index (Controls.window a')
       = Qt.current_index (Controls.window a)
       ∧ Qt.is_random (Controls.window a') = Qt.is_random (Controls.window a)
       ∧ Qt.rng (Controls.window a') = Qt.rng (Controls.window a)
       ∧ Qt.image_viewer (Controls.window a')
         = Qt.image_viewer (Controls.window a))
    ∧ Qt.play_timer (Controls.window a')
      = match k with
        | Controls.Key_P => negb (Qt.play_timer (Controls.window a))
        | Controls.Key_Escape | Controls.Key_Q | Controls.Key_X => false
        | _ => Qt.play_timer (Controls.window a)
        end.
Proof.
  intros decodes io [|d] k a a'; [done|].
  unfold Controls.keyPressEvent.
  destruct k;
    try (intros [= <-]; simpl; repeat split; done).
  - destruct (Qt.next_image decodes d (Controls.window a)) as [w|] eqn:Hrun;
      [|done]. intros [= <-]. simpl.
    apply (returns_frame decodes d) in Hrun as (Him & _ & _ & _ & Ht).
    rewrite Him, Ht. done.
  - destruct (Qt.next_image decodes d (Controls.window a)) as [w|] eqn:Hrun;
      [|done]. intros [= <-]. simpl.
    apply (returns_frame decodes d) in Hrun as (Him & _ & _ & _ & Ht).
    rewrite Him, Ht. done.
  - destruct (Qt.prev_image decodes d (Controls.window a)) as [w|] eqn:Hrun;
      [|done]. intros [= <-]. simpl.
    apply prev_image_frame in Hrun as (Him & _ & _ & _ & Ht).
    rewrite Him, Ht. done.
  - destruct (Qt.toggle_random decodes io d (Controls.window a)) as [w|] eqn:Hrun;
      [|done]. intros [= <-]. simpl.
    destruct d as [|d]; [done|].
    rewrite toggle_random_unfold in Hrun.
    apply (returns_frame decodes d) in Hrun as (Him & _ & _ & _ & Ht).
    set (w1 := Qt.with_random _ _ _ _) in *.
    destruct (shuffle_if_random_facts w1) as (Hperm & _ & _ & Htimer & _).
    rewrite Him, Ht, Htimer. simpl in Hperm.
    split; [exact Hperm|]. split; [done|]. split; [done|done].
  - intros Hrun. apply toggle_info_window in Hrun as (? & ? & ? & ? & ? & ?).
    repeat split; try done. by rewrite H.
  - intros Hrun. apply toggle_clock_window in Hrun as (? & ? & ? & ? & ? & ?).
    repeat split; try done. by rewrite H.
  - intros Hrun. apply start_scan_window in Hrun as ->. done.
  - destruct (Controls.cycle_scale_mode decodes io d (Controls.window a))
      as [w|] eqn:Hrun; [|done]. intros [= <-]. simpl.
    destruct d as [|d]; [done|].
    destruct (cycle_scale_mode_unfold decodes io d (Controls.window a))
      as (m & _ & Heq).
    rewrite Heq in Hrun.
    apply (returns_frame decodes d) in Hrun as (Him & _ & _ & _ & Ht).
    rewrite Him, Ht. done.
Qed.

(** ** More on scanning *)

(** X11: every path a top-level scan returns is also returned by the
    recursive scan of the same folder with the same extensions. *)
Theorem top_level_scan_within_recursive :
  ∀ (fs : Fs.filesystem) folder exts p,
    p ∈ ImageScanner.run fs (ImageScanner.init folder exts false) →
    p ∈ ImageScanner.run fs (ImageScanner.init folder exts true).
Proof.
  intros fs folder exts p.
  destruct (fs (Pathlib.str (Pathlib.of_str folder))) as [root|] eqn:Hroot.
  - rewrite !(run_elem_of fs folder exts _ root) by done.
    intros (rel & e & Hreach & _ & Hrest). exists rel, e. done.
  - unfold ImageScanner.run. simpl. by rewrite Hroot.
Qed.

Lemma lower_ascii_dot c :
  Str.lower_ascii c = "."%char ↔ c = "."%char.
Proof.
  destruct c as [[] [] [] [] [] [] [] []]; vm_compute; split; congruence.
Qed.

Lemma lower_is_dotted s : is_dotted (Str.lower s) = is_dotted s.
Proof.
  destruct s as [|c s]; [done|]. simpl.
  destruct (decide (c = "."%char)) as [->|Hne]; [done|].
  assert (Str.lower_ascii c ≠ "."%char) as Hl by by rewrite lower_ascii_dot.
  transitivity false.
  - destruct (Str.lower_ascii c) as [[] [] [] [] [] [] [] []]; done.
  - destruct c as [[] [] [] [] [] [] [] []]; done.
Qed.

Lemma lower_empty s : Str.lower s = ""%string ↔ s = ""%string.
Proof. by destruct s. Qed.

Lemma from_last_dot_dotted s t :
  Str.from_last_dot s = Some t → is_dotted t = true.
Proof.
  revert t. induction s as [|c s IH]; intros t; [done|]. simpl.
  destruct (Str.from_last_dot s) as [t'|].
  - intros [= <-]. by apply IH.
  - destruct (decide (c = "."%char)) as [->|_]; [|done]. by intros [= <-].
Qed.

Lemma suffix_dotted nm :
  Pathlib.suffix_of_name nm = ""%string
  ∨ is_dotted (Pathlib.suffix_of_name nm) = true.
Proof.
  unfold Pathlib.suffix_of_name. destruct nm as [|c rest]; [by left|].
  destruct (Str.from_last_dot rest) as [t|] eqn:Ht; [|by left].
  destruct (decide _); [by left|]. right. by eapply from_last_dot_dotted.
Qed.

(** X12: an accepted extension has to carry its dot.  When no extension of
    the list starts with a dot and none is empty, the scan returns no
    picture, whatever the folder holds. *)
Theorem extensions_need_their_dot :
  ∀ (fs : Fs.filesystem) folder exts recursive,
    (∀ e, e ∈ exts → e ≠ ""%string ∧ is_dotted e = false) →
    ImageScanner.run fs (ImageScanner.init folder exts recursive) = [].
Proof.
  intros fs folder exts recursive Hexts.
  destruct (fs (Pathlib.str (Pathlib.of_str folder))) as [root|] eqn:Hroot;
    [|unfold ImageScanner.run; simpl; by rewrite Hroot].
  apply elem_of_nil_inv. intros p Hp.
  apply (run_elem_of fs folder exts recursive root) in Hp
    as (rel & e & _ & _ & _ & Hin & _); [|done].
  apply list_elem_of_fmap in Hin as (ext & Heq & Hext).
  destruct (Hexts ext Hext) as [Hne Hnodot].
  destruct (suffix_dotted (Fs.entry_name e)) as [Hs|Hs].
  - rewrite Hs in Heq. symmetry in Heq.
    change (Str.lower ""%string) with ""%string in Heq.
    apply (proj1 (lower_empty ext)) in Heq. done.
  - rewrite <- lower_is_dotted, Heq, lower_is_dotted in Hs. congruence.
Qed.

(** ** More on counting *)

Lemma count_loop_le n :
  (foldl (λ file_count (triple : list Fs.node * list Fs.node),
            (file_count + Z.of_nat (length triple.2))%Z) 0%Z (Counter.walk n)
   ≤ match n with
     | Fs.File _ => 0
     | Fs.Dir _ _ _ => files_in n
     end)%Z.
Proof.
  assert (∀ m, 0 ≤ files_in m)%Z as Hpos.
  { induction m as [s|s r es IH] using node_ind'; [simpl; lia|].
    simpl. induction es as [|e es IHes]; [simpl; lia|].
    inversion IH; subst. simpl. specialize (IHes ltac:(done)). lia. }
  induction n as [s|s r es IH] using node_ind'; [done|].
  destruct r; [|apply Hpos].
  change (Counter.walk (Fs.Dir s true es))
    with ([(List.filter (λ e, negb (Fs.is_file e)) es, List.filter Fs.is_file es)]
          ++ List.flat_map Counter.walk es).
  rewrite count_loop_app. simpl.
  induction es as [|e es IHes]; [done|].
  inversion IH as [|? ? He IHrest]; subst.
  specialize (IHes IHrest).
  simpl. rewrite count_loop_app.
  destruct e as [f|d r es']; simpl in *; lia.
Qed.

(** X13: for a directory all of whose sub-directories can be listed,
    [count_all_files] returns exactly the number of files of the tree. *)
Theorem count_is_exact_when_listable :
  ∀ (fs : Fs.filesystem) path s es,
    fs path = Some (Fs.Dir s true es) →
    listable (Fs.Dir s true es) →
    Counter.count_all_files fs path
    = Py.Returned (files_in (Fs.Dir s true es)).
Proof. intros fs path s es. apply count_all_files_listable. Qed.

Lemma count_all_files_dir (fs : Fs.filesystem) path s r es :
  fs path = Some (Fs.Dir s r es) →
  Counter.count_all_files fs path
  = Py.Returned
      (foldl (λ file_count (triple : list Fs.node * list Fs.node),
                (file_count + Z.of_nat (length triple.2))%Z) 0%Z
         (Counter.walk (Fs.Dir s r es))).
Proof.
  intros Hdir.
  unfold Counter.count_all_files, Counter.exists_, Counter.isdir,
    Counter.count_loop. by rewrite Hdir.
Qed.

(** X14: [count_all_files] never raises, and it returns -1 exactly when the
    path does not exist or names something that is not a directory. *)
Theorem count_minus_one_iff :
  ∀ (fs : Fs.filesystem) path,
    (∃ n, Counter.count_all_files fs path = Py.Returned n)
    ∧ (Counter.count_all_files fs path = Py.Returned (-1)%Z
       ↔ fs path = None ∨ ∃ s, fs path = Some (Fs.File s)).
Proof.
  intros fs path.
  destruct (fs path) as [[s|s r es]|] eqn:Hp.
  - rewrite count_missing_or_file by (right; by exists s).
    split; [by eexists|]. split; [intros _; right; by exists s|done].
  - rewrite (count_all_files_dir fs path s r es) by done.
    pose proof (count_loop_nonneg (Counter.walk (Fs.Dir s r es)) 0%Z) as Hpos.
    set (n := foldl _ _ _) in *.
    split; [by eexists|]. split.
    + intros [= Heq]. lia.
    + intros [?|[? ?]]; done.
  - rewrite count_missing_or_file by by left.
    split; [by eexists|]. split; [intros _; by left|done].
Qed.

(** X15: sub-directories that may not be listed only make the count smaller:
    for a directory the result lies between 0 and the number of files of the
    tree. *)
Theorem count_never_exceeds_files :
  ∀ (fs : Fs.filesystem) path s r es,
    fs path = Some (Fs.Dir s r es) →
    ∃ n, Counter.count_all_files fs path = Py.Returned n
         ∧ (0 ≤ n ≤ files_in (Fs.Dir s r es))%Z.
Proof.
  intros fs path s r es Hdir.
  rewrite (count_all_files_dir fs path s r es) by done.
  eexists. split; [reflexivity|]. split.
  - by apply count_loop_nonneg.
  - apply (count_loop_le (Fs.Dir s r es)).
Qed.

(** ** More on the pygame player *)

(** With the index inside the catalog, [_load_next_image] always returns:
    an exception from the calls below is caught by the [except] of the frame
    above. *)
Lemma pygame_load_total decodes d : ∀ (p : Pygame.player),
  in_range_files p →
  ∃ p', Pygame._load_next_image decodes (S d) p = Pygame.Done p'
        ∧ Pygame.image_files p' = Pygame.image_files p
        ∧ Pygame.random_order p' = Pygame.random_order p
        ∧ Pygame.auto_restart p' = Pygame.auto_restart p
        ∧ in_range_files p'.
Proof.
  induction d as [|d IH]; intros p Hi;
    destruct (getitem_in_range (Pygame.image_files p)
                (Pygame.current_image_index p) Hi) as (q & Hq & _);
    destruct (decodes q) eqn:Hdq;
    try (rewrite (pygame_load_decodes decodes _ p q) by done;
         eexists; split; [done|]; done);
    rewrite (pygame_load_fails decodes _ p q) by done.
  - simpl. eexists. split; [done|]. simpl. do 3 (split; [done|]).
    unfold in_range_files, ahead_files in *. simpl.
    apply Z.mod_pos_bound. lia.
  - set (p2 := Pygame.with_index _ _).
    destruct (IH p2) as (p' & Hrun & Hf & Hr & Ha & Hi').
    + unfold in_range_files, p2, ahead_files. simpl. apply Z.mod_pos_bound.
      unfold in_range_files in Hi. lia.
    + exists p'. rewrite Hrun. unfold in_range_files in *.
      rewrite Hf in Hi' |- *. done.
Qed.

Lemma pygame_shuffle_facts (p : Pygame.player) :
  Pygame.image_files (Pygame.shuffle p) ≡ₚ Pygame.image_files p
  ∧ Pygame.current_image_index (Pygame.shuffle p)
    = Pygame.current_image_index p
  ∧ Pygame.random_order (Pygame.shuffle p) = Pygame.random_order p
  ∧ Pygame.auto_restart (Pygame.shuffle p) = Pygame.auto_restart p.
Proof.
  unfold Pygame.shuffle. destruct (Pygame.image_files p) as [|x l] eqn:E.
  - by rewrite E.
  - rewrite <- E.
    pose proof (shuffle_Permutation (Pygame.image_files p) (Pygame.rng p)).
    by destruct (Py.shuffle _ _).
Qed.

Lemma pygame_next_unfold decodes d (p : Pygame.player) :
  Pygame.image_files p ≠ [] →
  Pygame._next_image decodes (S d) p
  = Pygame._load_next_image decodes d
      (if decide (Z.of_nat (length (Pygame.image_files p))
                  ≤ Pygame.current_image_index p + 1)%Z
       then
         if Pygame.random_order p && Pygame.auto_restart p
         then Pygame.shuffle
                (Pygame.with_index 0
                   (Pygame.with_index (Pygame.current_image_index p + 1) p))
         else Pygame.with_index 0
                (Pygame.with_index (Pygame.current_image_index p + 1) p)
       else Pygame.with_index (Pygame.current_image_index p + 1) p).
Proof.
  intros Hne. unfold Pygame._next_image.
  destruct (Pygame.image_files p) as [|x l] eqn:E; [done|].
  simpl. rewrite E. reflexivity.
Qed.

Lemma pygame_prev_unfold decodes d (p : Pygame.player) :
  Pygame.image_files p ≠ [] →
  Pygame._prev_image decodes (S d) p
  = Pygame._load_next_image decodes d
      (if decide (Pygame.current_image_index p - 1 < 0)%Z
       then Pygame.with_index
              (Z.of_nat (length (Pygame.image_files p)) - 1)
              (Pygame.with_index (Pygame.current_image_index p - 1) p)
       else Pygame.with_index (Pygame.current_image_index p - 1) p).
Proof.
  intros Hne. unfold Pygame._prev_image.
  destruct (Pygame.image_files p) as [|x l] eqn:E; [done|].
  simpl. rewrite E. reflexivity.
Qed.

Lemma pygame_press_total decodes d key (p : Pygame.player) :
  in_range_files p →
  ∃ p', PygameKeys.press decodes (S (S d)) key p = Pygame.Done p'
        ∧ Pygame.image_files p' ≡ₚ Pygame.image_files p
        ∧ (Pygame.random_order p = false →
           Pygame.image_files p' = Pygame.image_files p)
        ∧ Pygame.random_order p' = Pygame.random_order p
        ∧ in_range_files p'.
Proof.
  intros Hi. unfold in_range_files in Hi.
  assert (Pygame.image_files p ≠ []) as Hne.
  { intros E. rewrite E in Hi. simpl in Hi. lia. }
  destruct key; unfold PygameKeys.press.
  - rewrite pygame_next_unfold by done.
    destruct (decide _) as [Hwrap|Hin].
    + set (p0 := Pygame.with_index 0 _).
      destruct (Pygame.random_order p && Pygame.auto_restart p) eqn:Hb.
      * destruct (pygame_shuffle_facts p0) as (Hperm & Hidx & Hr & _).
        destruct (pygame_load_total decodes d (Pygame.shuffle p0))
          as (p' & Hrun & Hf & Hr' & _ & Hi').
        { unfold in_range_files. rewrite Hidx, Hperm. simpl. lia. }
        exists p'. simpl in Hperm, Hr.
        split; [exact Hrun|]. split; [by rewrite Hf|].
        split; [intros Hseq; rewrite Hseq in Hb; done|].
        split; [congruence|exact Hi'].
      * destruct (pygame_load_total decodes d p0)
          as (p' & Hrun & Hf & Hr' & _ & Hi'); [unfold in_range_files; simpl; lia|].
        exists p'. split; [exact Hrun|]. split; [by rewrite Hf|].
      split; [intros _; by rewrite Hf|]. split; [by rewrite Hr'|exact Hi'].
    + destruct (pygame_load_total decodes d
                  (Pygame.with_index (Pygame.current_image_index p + 1) p))
        as (p' & Hrun & Hf & Hr' & _ & Hi'); [unfold in_range_files; simpl; lia|].
      exists p'. split; [exact Hrun|]. split; [by rewrite Hf|].
      split; [intros _; by rewrite Hf|]. split; [by rewrite Hr'|exact Hi'].
  - rewrite pygame_prev_unfold by done.
    destruct (decide _) as [Hwrap|Hin].
    + destruct (pygame_load_total decodes d
                  (Pygame.with_index
                     (Z.of_nat (length (Pygame.image_files p)) - 1)
                     (Pygame.with_index (Pygame.current_image_index p - 1) p)))
        as (p' & Hrun & Hf & Hr' & _ & Hi'); [unfold in_range_files; simpl; lia|].
      exists p'. split; [exact Hrun|]. split; [by rewrite Hf|].
      split; [intros _; by rewrite Hf|]. split; [by rewrite Hr'|exact Hi'].
    + destruct (pygame_load_total decodes d
                  (Pygame.with_index (Pygame.current_image_index p - 1) p))
        as (p' & Hrun & Hf & Hr' & _ & Hi'); [unfold in_range_files; simpl; lia|].
      exists p'. split; [exact Hrun|]. split; [by rewrite Hf|].
      split; [intros _; by rewrite Hf|]. split; [by rewrite Hr'|exact Hi'].
Qed.

(** X16: in the pygame player, from an index inside the catalog, every
    sequence of next and previous presses returns without an exception,
    whether pictures decode or not (one frame of stack for the press and one
    for the load are enough); the index stays inside the catalog, and the
    catalog stays a permutation of what it was, the same list in sequential
    mode. *)
Theorem pygame_presses_never_raise :
  ∀ decodes d keys (p : Pygame.player),
    (0 ≤ Pygame.current_image_index p
     < Z.of_nat (length (Pygame.image_files p)))%Z →
    ∃ p', PygameKeys.presses decodes (S (S d)) keys p = Pygame.Done p'
          ∧ Pygame.image_files p' ≡ₚ Pygame.image_files p
          ∧ (Pygame.random_order p = false →
             Pygame.image_files p' = Pygame.image_files p)
          ∧ (0 ≤ Pygame.current_image_index p'
             < Z.of_nat (length (Pygame.image_files p')))%Z.
Proof.
  intros decodes d keys. induction keys as [|k ks IH]; intros p Hi.
  - exists p. done.
  - destruct (pygame_press_total decodes d k p Hi)
      as (p1 & Hk & Hperm & Hseq & Hr & Hi1).
    destruct (IH p1 Hi1) as (p' & Hrun & Hperm' & Hseq' & Hi').
    exists p'. simpl. rewrite Hk, Hrun.
    split; [done|]. split; [by rewrite Hperm'|].
    split; [|exact Hi'].
    intros Hmode. rewrite Hseq', Hseq; [done|done|congruence].
Qed.

(** X17: in the pygame player, toggling the order twice from sequential mode
    brings the catalog back to sorted order with the index at 0: the result
    is the sorted catalog, which is the catalog itself when it was sorted (as
    a scan leaves it). *)
Theorem pygame_double_toggle_restores_order :
  ∀ decodes d d' (p : Pygame.player),
    Pygame.image_files p ≠ [] →
    Pygame.random_order p = false →
    (∀ q, q ∈ Pygame.image_files p → decodes q = true) →
    ∃ p1 p2,
      Pygame._toggle_random_order decodes (S (S d)) p = Pygame.Done p1
      ∧ Pygame._toggle_random_order decodes (S (S d')) p1 = Pygame.Done p2
      ∧ Pygame.random_order p1 = true
      ∧ Pygame.random_order p2 = false
      ∧ Pygame.current_image_index p2 = 0%Z
      ∧ Pygame.image_files p2 ≡ₚ Pygame.image_files p
      ∧ Sorted String.le (Pygame.image_files p2)
      ∧ (Sorted String.le (Pygame.image_files p) →
         Pygame.image_files p2 = Pygame.image_files p).
Proof.
  intros decodes d d' p Hne Hseq Hall.
  destruct (pygame_toggle decodes d p Hne Hall)
    as (p1 & Hrun1 & Hr1 & _ & Hperm1 & _ & _).
  rewrite Hseq in Hr1. simpl in Hr1.
  destruct (pygame_toggle decodes d' p1)
    as (p2 & Hrun2 & Hr2 & Hidx2 & Hperm2 & Hsort2 & _).
  { intros E. rewrite E in Hperm1. apply Permutation_nil_l in Hperm1. done. }
  { intros q Hq. apply Hall. by rewrite <- Hperm1. }
  rewrite Hr1 in Hr2. simpl in Hr2.
  destruct (Hsort2 Hr1) as [_ Hsorted].
  exists p1, p2. repeat split; try done.
  - by rewrite Hperm2.
  - intros Hp. eapply (Sorted_unique String.le); try done.
    by rewrite Hperm2.
Qed.

(** X18: the F key of the pygame player does not change the display mode.
    [_toggle_fullscreen] flips the shared setting and then calls the
    manager's [toggle_fullscreen], which flips it back before it builds the
    screen: however the call ends, the setting has the truth value it had,
    the screen is the one [create_screen] builds for that value, and the
    pointer is shown exactly when the setting is off. *)
Theorem pygame_toggle_fullscreen_changes_nothing :
  ∀ decodes depth (s : Display.system),
    Display.fullscreen (state_of (Display._toggle_fullscreen decodes (S depth) s))
    = Display.fullscreen s
    ∧ Display.surface (state_of (Display._toggle_fullscreen decodes (S depth) s))
      = Display.surface (Display.create_screen s)
    ∧ Display.mouse_visible
        (state_of (Display._toggle_fullscreen decodes (S depth) s))
      = negb (Display.fullscreen s)
    ∧ Display.fullscreen_mode
        (state_of (Display._toggle_fullscreen decodes (S depth) s))
      = Display.fullscreen_mode s.
Proof.
  intros decodes depth s. unfold Display._toggle_fullscreen.
  destruct (Pygame._load_next_image _ _ _); simpl;
    rewrite negb_involutive; done.
Qed.

(** X19: the pygame player's "next" away from the end of the catalog moves
    to the following index and leaves the catalog and the random generator
    alone in either mode; at the last index it goes back to index 0, and the
    catalog is shuffled again exactly when both [random_order] and
    [auto_restart] are set. *)
Theorem pygame_next_reshuffles_at_wraparound :
  ∀ decodes d (p : Pygame.player),
    (0 ≤ Pygame.current_image_index p
     < Z.of_nat (length (Pygame.image_files p)))%Z →
    (∀ q, q ∈ Pygame.image_files p → decodes q = true) →
    ∃ p', Pygame._next_image decodes (S (S d)) p = Pygame.Done p'
          ∧ ((Pygame.current_image_index p + 1
              < Z.of_nat (length (Pygame.image_files p)))%Z →
             Pygame.current_image_index p' = (Pygame.current_image_index p + 1)%Z
             ∧ Pygame.image_files p' = Pygame.image_files p
             ∧ Pygame.rng p' = Pygame.rng p)
          ∧ ((Pygame.current_image_index p + 1
              = Z.of_nat (length (Pygame.image_files p)))%Z →
             Pygame.current_image_index p' = 0%Z
             ∧ Pygame.image_files p'
               = if Pygame.random_order p && Pygame.auto_restart p
                 then (Py.shuffle (Pygame.image_files p) (Pygame.rng p)).1
                 else Pygame.image_files p).
Proof.
  intros decodes d p Hi Hall.
  assert (Pygame.image_files p ≠ []) as Hne.
  { intros E. rewrite E in Hi. simpl in Hi. lia. }
  rewrite pygame_next_unfold by done.
  destruct (decide _) as [Hwrap|Hin].
  - set (p0 := Pygame.with_index 0
                  (Pygame.with_index (Pygame.current_image_index p + 1) p)).
    match goal with
    | |- context [Pygame._load_next_image _ _ ?x] => set (p2 := x)
    end.
    assert (Pygame.image_files p2 ≡ₚ Pygame.image_files p
            ∧ Pygame.current_image_index p2 = 0%Z
            ∧ Pygame.image_files p2
              = if Pygame.random_order p && Pygame.auto_restart p
                then (Py.shuffle (Pygame.image_files p) (Pygame.rng p)).1
                else Pygame.image_files p) as (Hperm & Hidx & Hfiles).
    { unfold p2. destruct (_ && _); [|done].
      destruct (pygame_shuffle_facts p0) as (Hperm & Hidx & _).
      split; [done|]. split; [done|].
      unfold Pygame.shuffle. simpl.
      destruct (Pygame.image_files p) as [|x l] eqn:E; [done|].
      rewrite <- E. by destruct (Py.shuffle _ _). }
    assert (0 < length (Pygame.image_files p2)) as Hlen.
    { rewrite Hperm. destruct (Pygame.image_files p); [done|simpl; lia]. }
    destruct (lookup_lt_is_Some_2 (Pygame.image_files p2) 0 Hlen) as [q Hq].
    rewrite (pygame_load_decodes decodes d p2 q).
    + eexists. split; [done|]. simpl. split; [lia|]. intros _. done.
    + rewrite Hidx. lia.
    + by rewrite Hidx.
    + apply Hall. rewrite <- Hperm. by eapply list_elem_of_lookup_2.
  - set (p1 := Pygame.with_index _ p).
    assert (∃ q, Pygame.image_files p
                 !! Z.to_nat (Pygame.current_image_index p + 1) = Some q)
      as [q Hq] by (apply lookup_lt_is_Some_2; lia).
    rewrite (pygame_load_decodes decodes d p1 q).
    + eexists. split; [done|]. simpl. split; [done|]. lia.
    + simpl. lia.
    + done.
    + apply Hall. by eapply list_elem_of_lookup_2.
Qed.

(** X20: when no picture decodes, the pygame player tries one picture per
    frame of stack, going round the catalog until the stack is used up, and
    then returns with no surface and the catalog as it was: it does not stop
    after one pass, and it does not raise. *)
Theorem pygame_corrupt_catalog_blank :
  ∀ decodes d (p : Pygame.player),
    (0 ≤ Pygame.current_image_index p
     < Z.of_nat (length (Pygame.image_files p)))%Z →
    (∀ q, q ∈ Pygame.image_files p → decodes q = false) →
    ∃ p', Pygame._load_next_image decodes (S d) p = Pygame.Done p'
          ∧ Pygame.current_surface p' = None
          ∧ Pygame.image_files p' = Pygame.image_files p
          ∧ Pygame.current_image_index p' = ahead_files p (S d).
Proof. intros decodes d p Hi Hnone. by apply pygame_all_corrupt. Qed.

(** X21: whenever [show_current_image] or [next_image] returns on a
    non-empty catalog, the scale mode of the viewer is the "scale_mode"
    setting (or "fit" when there is none), and catalog, mode, settings,
    settings file and playback timer are as they were. *)
Theorem shown_picture_follows_settings :
  ∀ decodes depth (w w' : Qt.window),
    Qt.images w ≠ [] →
    (Qt.show_current_image decodes depth w = Py.Returned w'
     ∨ Qt.next_image decodes depth w = Py.Returned w') →
    Viewer.scale_mode (Qt.image_viewer w')
    = Config.get (Qt.config w) "scale_mode" (Json.Str "fit")
    ∧ Qt.images w' = Qt.images w
    ∧ Qt.is_random w' = Qt.is_random w
    ∧ Qt.config w' = Qt.config w
    ∧ Qt.disk w' = Qt.disk w
    ∧ Qt.play_timer w' = Qt.play_timer w.
Proof.
  intros decodes depth w w' Hne [Hrun|Hrun].
  - split.
    + exact (proj1 (returns_scale_mode decodes depth w w') Hrun Hne).
    + exact (proj1 (returns_frame decodes depth w w') Hrun).
  - split.
    + exact (proj2 (returns_scale_mode decodes depth w w') Hrun Hne).
    + exact (proj2 (returns_frame decodes depth w w') Hrun).
Qed.
